(** * The template renderer of [services/template_renderer.go]

    A shallow embedding of [TemplateRenderer] (its cache, [Parse],
    [Execute], [ParseAndExecute], [Load], [getCacheKey]) and the properties
    of its caching, parsing and execution life cycle.

    Go strings are byte sequences and are modelled as [string]; the
    renderer's [sync.Map] as a [gmap] from keys to dynamically typed values;
    the backing arrays of [[]string] slices as a store, so that the writes
    [Parse] makes through its [files] argument are seen by every holder of
    the slice. *)

From Stdlib Require Import Ascii.
From stdpp Require Import gmap strings list fin_maps.

Local Open Scope string_scope.

(** ** Strings and [fmt.Sprintf] *)

(** The separator byte of the cache key. *)
Definition sep : ascii := ":"%char.

(** [has_sep s]: the byte [':'] occurs in [s]. *)
Fixpoint has_sep (s : string) : bool :=
  match s with
  | EmptyString => false
  | String c s' => if decide (c = sep) then true else has_sep s'
  end.

(** [func (t *TemplateRenderer) getCacheKey(group, id string) string]:
    [fmt.Sprintf("%s:%s", group, id)]. The verb [%s] writes the bytes of
    its argument unchanged. *)
Definition getCacheKey (group id : string) : string :=
  group +:+ ":" +:+ id.

(** ** Go slices of strings

    A slice value is a window [off, off+len) on a backing array; passing it
    to a function copies the window, not the array. *)

Module Go.

Definition loc := nat.

Record slice := Slice { ptr : loc; off : nat; len : nat }.

(** The backing arrays of the [[]string] values of the program. *)
Abbreviation heap := (gmap loc (list string)).

(** A slice the Go runtime can hand out: its window lies in its array. *)
Definition valid (h : heap) (s : slice) : Prop :=
  ∃ arr, h !! ptr s = Some arr ∧ (off s + len s ≤ length arr)%nat.

(** [s[k]] *)
Definition index (h : heap) (s : slice) (k : nat) : string :=
  default "" (h !! ptr s ≫= λ arr, arr !! (off s + k)).

(** [s[k] = v] *)
Definition store (h : heap) (s : slice) (k : nat) (v : string) : heap :=
  alter (λ arr, <[off s + k := v]> arr) (ptr s) h.

(** The elements [s[0], ..., s[len-1]], as a variadic call [f(s...)] or a
    [range] loop reads them. *)
Definition elems (h : heap) (s : slice) : list string :=
  take (len s) (drop (off s) (default [] (h !! ptr s))).

(** An array whose window [lo, lo+n) went through [f]. *)
Definition rewrite_window (f : string → string) (lo n : nat)
    (arr : list string) : list string :=
  take lo arr ++ (f <$> take n (drop lo arr)) ++ drop (lo + n) arr.

End Go.

(** ** Errors and results *)

(** A Go [error]: one made by [errors.New], or one returned by the
    [html/template] package (of type [E]). *)
Inductive error (E : Type) : Type :=
  | errors_New (text : string)
  | template_error (e : E).
Arguments errors_New {E} text.
Arguments template_error {E} e.

(** The pair [(v, nil)] or [(nil, err)] a fallible Go function returns. *)
Inductive result (E A : Type) : Type :=
  | Ok (v : A)
  | Err (err : error E).
Arguments Ok {E A} v.
Arguments Err {E A} err.

(** ** The collaborators: [goweb/config], [goweb/funcmap], [html/template]

    The renderer is verified against the interface of the packages it
    imports. [Template] is the value of the object a [*template.Template]
    points to; [FileSystem] is what [os.ReadFile] and [filepath.Glob] see at
    the time of the call. *)
Class Collaborators := {
  (** [config.TemplateExt] *)
  TemplateExt : string;
  (** [config.EnvLocal], of type [config.environment] (a string type) *)
  EnvLocal : string;
  (** the directory [NewTemplateRenderer] resolves from [runtime.Caller]
      and [config.TemplateDir] *)
  TemplateRoot : string;
  FuncMap : Type;
  (** [funcmap.GetFuncMap()] *)
  GetFuncMap : FuncMap;
  Template : Type;
  TemplateError : Type;
  FileSystem : Type;
  (** the [interface{}] handed to a template *)
  Data : Type;
  (** [template.New(name)] *)
  template_New : string → Template;
  (** [t.Funcs(funcMap)] *)
  Funcs : Template → FuncMap → Template;
  (** [t.ParseFiles(filenames...)] *)
  ParseFiles : FileSystem → Template → list string → Template + TemplateError;
  (** [t.ParseGlob(pattern)] *)
  ParseGlob : FileSystem → Template → string → Template + TemplateError;
  (** [t.Lookup(name)]: the template of that name associated with [t] *)
  Lookup : Template → string → option Template;
  (** [t.ExecuteTemplate(buf, name, data)] on an empty buffer: the bytes
      written and the error returned *)
  ExecuteTemplate : Template → string → Data → string * option TemplateError;
  (** [ExecuteTemplate] reports a name that is not defined in the set *)
  ExecuteTemplate_undefined :
    ∀ t name data, Lookup t name = None →
      ∃ out e, ExecuteTemplate t name data = (out, Some e)
}.

(** ** The renderer *)

Section Renderer.
Context `{C : Collaborators}.

(** A value of type [any] held by the [sync.Map]: a [*template.Template],
    or a value of another dynamic type. *)
Inductive any : Type :=
  | any_Template (tmpl : Template)
  | any_other (v : string).

(** [config.Config], reduced to [App.Environment]. *)
Record Config := { App_Environment : string }.

Record TemplateRenderer := {
  templateCache : gmap string any;
  funcMap : FuncMap;
  templatesPath : string;
  config : Config
}.

(** What a call can read and write: the renderer [t] points to, the
    backing arrays of the caller's slices, and the file system. *)
Record World := {
  renderer : TemplateRenderer;
  heap : Go.heap;
  fs : FileSystem
}.

Abbreviation Error := (error TemplateError).
Abbreviation Result := (result TemplateError).

(** The error of [Load] for a key that is not in the cache. *)
Definition NotFoundError : Error := errors_New "uncached page template requested".
(** The error of [Load] for an entry that is not a template. *)
Definition TypeError : Error := errors_New "unable to cast cached template".

(** [func NewTemplateRenderer(cfg *config.Config) *TemplateRenderer] *)
Definition NewTemplateRenderer (cfg : Config) : TemplateRenderer :=
  {| templateCache := ∅;
     funcMap := GetFuncMap;
     templatesPath := TemplateRoot;
     config := cfg |}.

(** [t.templateCache.Store(key, value)] *)
Definition Store (key : string) (value : any) (w : World) : World :=
  {| renderer :=
       {| templateCache := <[key := value]> (templateCache (renderer w));
          funcMap := funcMap (renderer w);
          templatesPath := templatesPath (renderer w);
          config := config (renderer w) |};
     heap := heap w;
     fs := fs w |}.

(** [func (t *TemplateRenderer) Load(group, id string)], returning a
    [*template.Template] and an [error]. *)
Definition Load (group id : string) (w : World) : Result Template * World :=
  match templateCache (renderer w) !! getCacheKey group id with
  | None => (Err NotFoundError, w)
  | Some load =>
      match load with
      | any_Template tmpl => (Ok tmpl, w)
      | any_other _ => (Err TypeError, w)
      end
  end.

(** [func (t *TemplateRenderer) GetTemplatesPath() string] *)
Definition GetTemplatesPath (w : World) : string :=
  templatesPath (renderer w).

(** [fmt.Sprintf("%s/%s%s", t.templatesPath, v, config.TemplateExt)] *)
Definition file_path (root v : string) : string :=
  root +:+ "/" +:+ v +:+ TemplateExt.

(** [fmt.Sprintf("%s/%s/*%s", t.templatesPath, dir, config.TemplateExt)] *)
Definition dir_pattern (root dir : string) : string :=
  root +:+ "/" +:+ dir +:+ "/*" +:+ TemplateExt.

(** [for k, v := range files { files[k] = ... }] (lines 76-78), from
    index [k] on, with [n] elements left. *)
Fixpoint range_files (root : string) (files : Go.slice) (k n : nat)
    (h : Go.heap) : Go.heap :=
  match n with
  | 0 => h
  | S n' =>
      let v := Go.index h files k in
      range_files root files (S k) n' (Go.store h files k (file_path root v))
  end.

(** The writes of [Parse] to the caller's [files] (lines 75-78): none
    for an empty slice. *)
Definition rewrite_files (files : Go.slice) (w : World) : World :=
  if decide (0 < Go.len files)%nat
  then {| renderer := renderer w;
          heap := range_files (templatesPath (renderer w)) files 0
                    (Go.len files) (heap w);
          fs := fs w |}
  else w.

(** [for _, dir := range directories { ... }] (lines 87-93): the first
    glob that fails ends [Parse] with its error. *)
Fixpoint range_directories (w : World) (parsed : Template)
    (directories : list string) : Template + TemplateError :=
  match directories with
  | [] => inl parsed
  | dir :: rest =>
      match ParseGlob (fs w) parsed
              (dir_pattern (templatesPath (renderer w)) dir) with
      | inl parsed' => range_directories w parsed' rest
      | inr e => inr e
      end
  end.

(** What [Parse] parses (lines 71-93) once [files] is rewritten: a new
    template bound to the function map, the listed files, then the
    directories. *)
Definition parse_templates (name : string) (files directories : Go.slice)
    (w : World) : Template + TemplateError :=
  let parsed :=
    Funcs (template_New (name +:+ TemplateExt)) (funcMap (renderer w)) in
  let r :=
    if decide (0 < Go.len files)%nat
    then ParseFiles (fs w) parsed (Go.elems (heap w) files)
    else inl parsed in
  match r with
  | inr e => inr e
  | inl parsed => range_directories w parsed (Go.elems (heap w) directories)
  end.

(** Whether [Parse] parses: [err != nil || t.config.App.Environment ==
    config.EnvLocal], with [err] from [t.Load(group, id)]. *)
Definition reparse (group id : string) (w : World) : bool :=
  match fst (Load group id w) with
  | Err _ => true
  | Ok _ => bool_decide (App_Environment (config (renderer w)) = EnvLocal)
  end.

(** [func (t *TemplateRenderer) Parse(group, id, name string, files
    []string, directories []string) error]; [None] is [nil]. *)
Definition Parse (group id name : string) (files directories : Go.slice)
    (w : World) : option Error * World :=
  let cacheKey := getCacheKey group id in
  if reparse group id w then
    let w := rewrite_files files w in
    match parse_templates name files directories w with
    | inr e => (Some (template_error e), w)
    | inl parsed => (None, Store cacheKey (any_Template parsed) w)
    end
  else (None, w).

(** [func (t *TemplateRenderer) Execute(group, id, name string, data
    interface{})], returning a [*bytes.Buffer] and an [error]; the buffer
    is given by its contents. *)
Definition Execute (group id name : string) (data : Data)
    (w : World) : Result string * World :=
  match Load group id w with
  | (Err err, w) => (Err err, w)
  | (Ok tmpl, w) =>
      match ExecuteTemplate tmpl (name +:+ TemplateExt) data with
      | (buf, None) => (Ok buf, w)
      | (_, Some e) => (Err (template_error e), w)
      end
  end.

(** What [Execute] makes of a loaded template (lines 108-114): the
    contents of the buffer, or the error of [ExecuteTemplate]. *)
Definition rendered (tmpl : Template) (name : string) (data : Data)
    : Result string :=
  match ExecuteTemplate tmpl (name +:+ TemplateExt) data with
  | (buf, None) => Ok buf
  | (_, Some e) => Err (template_error e)
  end.

(** [func (t *TemplateRenderer) ParseAndExecute(group, id, name string,
    files []string, directories []string, data interface{})], returning a
    [*bytes.Buffer] and an [error]. *)
Definition ParseAndExecute (group id name : string)
    (files directories : Go.slice) (data : Data)
    (w : World) : Result string * World :=
  match Parse group id name files directories w with
  | (Some err, w) => (Err err, w)
  | (None, w) =>
      match Execute group id name data w with
      | (Err err, w) => (Err err, w)
      | (Ok buf, w) => (Ok buf, w)
      end
  end.

(** The load of [Parse] (lines 75-93) fails with [e] in the world [w]:
    [ParseFiles], called for a non-empty [files], returns [e]; or the files
    are parsed, the directories [before] are parsed after them, and
    [ParseGlob] returns [e] for the directory [dir] that follows. *)
Definition load_fails (name : string) (files directories : Go.slice)
    (w : World) (e : TemplateError) : Prop :=
  let new :=
    Funcs (template_New (name +:+ TemplateExt)) (funcMap (renderer w)) in
  ((0 < Go.len files)%nat ∧
   ParseFiles (fs w) new (Go.elems (heap w) files) = inr e) ∨
  (∃ parsed before dir after parsed',
     (if decide (0 < Go.len files)%nat
      then ParseFiles (fs w) new (Go.elems (heap w) files)
      else inl new) = inl parsed ∧
     Go.elems (heap w) directories = (before ++ dir :: after)%list ∧
     range_directories w parsed before = inl parsed' ∧
     ParseGlob (fs w) parsed'
       (dir_pattern (templatesPath (renderer w)) dir) = inr e).

(** Every entry of the cache is a template. *)
Definition cache_ok (w : World) : Prop :=
  ∀ key v, templateCache (renderer w) !! key = Some v →
    ∃ tmpl, v = any_Template tmpl.

(** The world [w] with another cache. *)
Definition with_cache (cache : gmap string any) (w : World) : World :=
  {| renderer :=
       {| templateCache := cache;
          funcMap := funcMap (renderer w);
          templatesPath := templatesPath (renderer w);
          config := config (renderer w) |};
     heap := heap w;
     fs := fs w |}.

(** ** The worlds a program can reach

    A renderer is made by [NewTemplateRenderer]; its cache is a private
    field, written by the methods alone. Between two calls the rest of
    the program may write to its slices, edit the template files and
    change the configuration. *)
Inductive reachable : World → Prop :=
  | reach_new cfg h f :
      reachable {| renderer := NewTemplateRenderer cfg; heap := h; fs := f |}
  | reach_outside w cfg h f :
      reachable w →
      reachable {| renderer :=
                     {| templateCache := templateCache (renderer w);
                        funcMap := funcMap (renderer w);
                        templatesPath := templatesPath (renderer w);
                        config := cfg |};
                   heap := h; fs := f |}
  | reach_Load w group id :
      reachable w → reachable (snd (Load group id w))
  | reach_Parse w group id name files directories :
      reachable w → reachable (snd (Parse group id name files directories w))
  | reach_Execute w group id name data :
      reachable w → reachable (snd (Execute group id name data w))
  | reach_ParseAndExecute w group id name files directories data :
      reachable w →
      reachable (snd (ParseAndExecute group id name files directories data w)).

(** The pairs a call to [Parse] adds to those that have stored an entry:
    its own when it reaches the [Store] of line 96, none otherwise. *)
Definition record_store (group id name : string)
    (files directories : Go.slice) (w : World)
    (pairs : list (string * string)) : list (string * string) :=
  if reparse group id w
  then match fst (Parse group id name files directories w) with
       | None => (group, id) :: pairs
       | Some _ => pairs
       end
  else pairs.

(** [stored_pairs pairs w]: the program has reached [w], and [pairs] are
    the (group, id) pairs for which a call has stored an entry since the
    renderer was made. *)
Inductive stored_pairs : list (string * string) → World → Prop :=
  | stored_new cfg h f :
      stored_pairs []
        {| renderer := NewTemplateRenderer cfg; heap := h; fs := f |}
  | stored_outside pairs w cfg h f :
      stored_pairs pairs w →
      stored_pairs pairs
        {| renderer :=
             {| templateCache := templateCache (renderer w);
                funcMap := funcMap (renderer w);
                templatesPath := templatesPath (renderer w);
                config := cfg |};
           heap := h; fs := f |}
  | stored_Load pairs w group id :
      stored_pairs pairs w → stored_pairs pairs (snd (Load group id w))
  | stored_Parse pairs w group id name files directories :
      stored_pairs pairs w →
      stored_pairs (record_store group id name files directories w pairs)
        (snd (Parse group id name files directories w))
  | stored_Execute pairs w group id name data :
      stored_pairs pairs w →
      stored_pairs pairs (snd (Execute group id name data w))
  | stored_ParseAndExecute pairs w group id name files directories data :
      stored_pairs pairs w →
      stored_pairs (record_store group id name files directories w pairs)
        (snd (ParseAndExecute group id name files directories data w)).

(** ** Two requests in parallel

    A request handler calls [Parse] and then [Execute] (as
    [ParseAndExecute] does). Its run is cut at every access to memory
    another handler can reach: each step below makes at most one access
    to the [sync.Map], whose [Load] and [Store] are atomic, or one write
    to an element of a slice. The files are only read. *)
Record request := Request {
  r_group : string;
  r_id : string;
  r_name : string;
  r_files : Go.slice;
  r_directories : Go.slice;
  r_data : Data
}.

Definition request_key (c : request) : string :=
  getCacheKey (r_group c) (r_id c).

(** Where a handler stands. *)
Inductive pc : Type :=
  | AtParse                       (* line 69, before [t.Load] *)
  | AtRewrite (k : nat)           (* line 76, before [files[k] = ...] *)
  | AtParseFiles                  (* lines 80-93, before the files are read *)
  | AtStore (parsed : Template)   (* line 96, before [Store] *)
  | AtExecute                     (* line 103, before [t.Load] *)
  | Finished (r : Result string).

Definition thread_step (c : request) (p : pc) (w : World) : pc * World :=
  match p with
  | AtParse =>
      if reparse (r_group c) (r_id c) w
      then (if decide (0 < Go.len (r_files c))%nat
            then AtRewrite 0 else AtParseFiles, w)
      else (AtExecute, w)
  | AtRewrite k =>
      if decide (k < Go.len (r_files c))%nat
      then
        let v := Go.index (heap w) (r_files c) k in
        (AtRewrite (S k),
         {| renderer := renderer w;
            heap := Go.store (heap w) (r_files c) k
                      (file_path (templatesPath (renderer w)) v);
            fs := fs w |})
      else (AtParseFiles, w)
  | AtParseFiles =>
      match parse_templates (r_name c) (r_files c) (r_directories c) w with
      | inr e => (Finished (Err (template_error e)), w)
      | inl parsed => (AtStore parsed, w)
      end
  | AtStore parsed =>
      (AtExecute, Store (request_key c) (any_Template parsed) w)
  | AtExecute =>
      let '(r, w) := Execute (r_group c) (r_id c) (r_name c) (r_data c) w in
      (Finished r, w)
  | Finished r => (Finished r, w)
  end.

(** [n] steps of one handler. *)
Fixpoint thread_steps (c : request) (n : nat) (p : pc) (w : World)
    : pc * World :=
  match n with
  | 0 => (p, w)
  | S n' => let '(p', w') := thread_step c p w in thread_steps c n' p' w'
  end.

(** Two handlers and the memory they share. *)
Record system := System { shared : World; left : pc; right : pc }.

(** One step of the handler the scheduler picks ([true]: the left one). *)
Definition system_step (c1 c2 : request) (s : system) (b : bool) : system :=
  if b
  then let '(p, w) := thread_step c1 (left s) (shared s) in
       {| shared := w; left := p; right := right s |}
  else let '(p, w) := thread_step c2 (right s) (shared s) in
       {| shared := w; left := left s; right := p |}.

Definition run (c1 c2 : request) (schedule : list bool) (w : World) : system :=
  fold_left (system_step c1 c2) schedule
    {| shared := w; left := AtParse; right := AtParse |}.

(** How many steps the schedule gives to the left ([true]) or right handler. *)
Definition turns (b : bool) (schedule : list bool) : nat :=
  length (filter (λ x, x = b) schedule).

(** The request served with no other handler running. *)
Definition serve (c : request) (w : World) : Result string * World :=
  ParseAndExecute (r_group c) (r_id c) (r_name c) (r_files c)
    (r_directories c) (r_data c) w.

(** The slice a handler writes to shares no backing array with the slices
    of the other handler. *)
Definition private_files (c1 c2 : request) : Prop :=
  Go.ptr (r_files c1) ≠ Go.ptr (r_files c2) ∧
  Go.ptr (r_files c1) ≠ Go.ptr (r_directories c2) ∧
  Go.ptr (r_files c2) ≠ Go.ptr (r_directories c1).

(** What a handler of [c] can see of the shared memory. *)
Definition agree (c : request) (w w' : World) : Prop :=
  templateCache (renderer w) !! request_key c
    = templateCache (renderer w') !! request_key c ∧
  funcMap (renderer w) = funcMap (renderer w') ∧
  templatesPath (renderer w) = templatesPath (renderer w') ∧
  config (renderer w) = config (renderer w') ∧
  heap w !! Go.ptr (r_files c) = heap w' !! Go.ptr (r_files c) ∧
  heap w !! Go.ptr (r_directories c) = heap w' !! Go.ptr (r_directories c) ∧
  fs w = fs w'.

End Renderer.

(** ** A small instance of the collaborators

    Templates without actions over an in-memory file system: enough to run
    the renderer on concrete inputs. *)

Module Sample.

(** [filepath.Base] of a path without a trailing slash: what follows
    the last [/], with [acc] the bytes read since the last one. *)
Fixpoint base_from (acc s : string) : string :=
  match s with
  | EmptyString => acc
  | String c s' =>
      if decide (c = "/"%char) then base_from EmptyString s'
      else base_from (acc +:+ String c EmptyString) s'
  end.

Definition base (s : string) : string := base_from EmptyString s.

(** A template set: the name of its root and the bodies it defines. *)
Record tmpl := Tmpl { tname : string; tset : gmap string string }.

Fixpoint parse_files (f : gmap string string) (t : tmpl)
    (filenames : list string) : tmpl + string :=
  match filenames with
  | [] => inl t
  | filename :: rest =>
      match f !! filename with
      | None => inr ("open " +:+ filename +:+ ": no such file or directory")
      | Some body =>
          parse_files f
            {| tname := tname t; tset := <[base filename := body]> (tset t) |}
            rest
      end
  end.

(** A pattern with [*] for any run of bytes other than [/]. *)
Fixpoint glob_match (pattern s : string) : bool :=
  match pattern with
  | EmptyString => bool_decide (s = EmptyString)
  | String c pattern' =>
      if decide (c = "*"%char)
      then (fix star (s : string) : bool :=
              glob_match pattern' s ||
              match s with
              | EmptyString => false
              | String d s' =>
                  if decide (d = "/"%char) then false else star s'
              end) s
      else match s with
           | EmptyString => false
           | String d s' => bool_decide (c = d) && glob_match pattern' s'
           end
  end.

Definition parse_glob (f : gmap string string) (t : tmpl)
    (pattern : string) : tmpl + string :=
  match filter (glob_match pattern) (map_to_list f).*1 with
  | [] => inr ("html/template: pattern matches no files: " +:+ pattern)
  | filenames => parse_files f t filenames
  end.

Definition lookup (t : tmpl) (name : string) : option tmpl :=
  match tset t !! name with
  | None => None
  | Some _ => Some {| tname := name; tset := tset t |}
  end.

(** The body of the named template, followed by the data. *)
Definition execute (t : tmpl) (name data : string) : string * option string :=
  match tset t !! name with
  | None => ("", Some ("html/template: " +:+ name +:+ " is undefined"))
  | Some body => (body +:+ data, None)
  end.

Lemma execute_undefined t name data :
  lookup t name = None → ∃ out e, execute t name data = (out, Some e).
Proof.
  unfold lookup, execute. destruct (tset t !! name); [done | eauto].
Qed.

#[export] Instance collaborators : Collaborators := {|
  TemplateExt := ".gohtml";
  EnvLocal := "local";
  TemplateRoot := "/app/templates";
  FuncMap := unit;
  GetFuncMap := tt;
  Template := tmpl;
  TemplateError := string;
  FileSystem := gmap string string;
  Data := string;
  template_New name := {| tname := name; tset := ∅ |};
  Funcs t _ := t;
  ParseFiles f t filenames :=
    match filenames with
    | [] => inr "html/template: no files named in call to ParseFiles"
    | _ => parse_files f t filenames
    end;
  ParseGlob := parse_glob;
  Lookup := lookup;
  ExecuteTemplate := execute;
  ExecuteTemplate_undefined := execute_undefined
|}.

(** Two template files and one directory of components. *)
Definition disk : gmap string string :=
  {[ "/app/templates/index.gohtml" := "<h1>index</h1>";
     "/app/templates/about.gohtml" := "<h1>about</h1>";
     "/app/templates/components/nav.gohtml" := "<nav/>" ]}.

(** The caller's slices: [[]string{"index"}] at 0, [[]string{"about"}]
    at 1, [[]string{"missing"}] at 2, [[]string{"components"}] at 3. *)
Definition arrays : Go.heap :=
  {[ 0 := ["index"]; 1 := ["about"]; 2 := ["missing"]; 3 := ["components"] ]}.

Definition whole (p n : nat) : Go.slice :=
  {| Go.ptr := p; Go.off := 0; Go.len := n |}.

(** The nil slice. *)
Definition nil_slice : Go.slice := whole 9 0.

Definition world (env : string) : World :=
  {| renderer := NewTemplateRenderer {| App_Environment := env |};
     heap := arrays;
     fs := disk |}.

(** A string as the data of a request. *)
Definition data (s : string) : Data := s.

Definition index_files : Go.slice := whole 0 1.
Definition about_files : Go.slice := whole 1 1.
Definition missing_files : Go.slice := whole 2 1.
Definition components : Go.slice := whole 3 1.

(** Two requests for two pages; a third that passes the slice of the
    first; and two requests whose pairs differ but whose cache keys are
    both ["a:b:c"]. *)
Definition home : request :=
  Request "page" "home" "index" index_files components (data "Hi").
Definition about : request :=
  Request "page" "about" "about" about_files components (data "Ho").
Definition start : request :=
  Request "page" "start" "index" index_files components (data "Hi").
Definition first_abc : request :=
  Request "a:b" "c" "index" index_files nil_slice (data "!").
Definition second_abc : request :=
  Request "a" "b:c" "about" about_files nil_slice (data "!").

(** The handlers take turns; the left one runs to its end, then the right
    one. *)
Definition alternate : list bool :=
  [true; false; true; false; true; false; true; false; true; false; true; false].
Definition in_turn : list bool :=
  [true; true; true; true; true; true; false; false; false; false; false; false].

(** A fifth array, of three directories of which the second does not
    exist, and the worlds over it. *)
Definition more_arrays : Go.heap :=
  <[4 := ["components"; "nothing"; "components"]]> arrays.
Definition three_directories : Go.slice := whole 4 3.
(** The window [1, 2) of the fifth array. *)
Definition middle : Go.slice := {| Go.ptr := 4; Go.off := 1; Go.len := 1 |}.
Definition world_more (env : string) : World :=
  {| renderer := NewTemplateRenderer {| App_Environment := env |};
     heap := more_arrays;
     fs := disk |}.

(** The template files after an edit of the page [index]. *)
Definition edited : gmap string string :=
  <["/app/templates/index.gohtml" := "<h1>new</h1>"]> disk.

(** The world after a first request for the page [home]. *)
Definition served (env : string) : World :=
  snd (Parse "page" "home" "index" index_files components (world env)).

End Sample.

(** * Properties *)

(** ** The cache key *)

Section CacheKey.
Implicit Types group id : string.

Lemma getCacheKey_nil id : getCacheKey "" id = String sep id.
Proof. reflexivity. Qed.

Lemma getCacheKey_cons c group id :
  getCacheKey (String c group) id = String c (getCacheKey group id).
Proof. reflexivity. Qed.

Lemma has_sep_key group id : has_sep (getCacheKey group id) = true.
Proof.
  induction group as [|c group IH].
  - reflexivity.
  - rewrite getCacheKey_cons. simpl. by destruct (decide (c = sep)).
Qed.

(** Two keys built on groups without the separator split at the same
    place: the first [':'] of the key. *)
Lemma getCacheKey_inj_group group1 id1 group2 id2 :
  has_sep group1 = false → has_sep group2 = false →
  getCacheKey group1 id1 = getCacheKey group2 id2 →
  group1 = group2 ∧ id1 = id2.
Proof.
  revert group2.
  induction group1 as [|c group1 IH]; intros [|d group2] H1 H2;
    rewrite ?getCacheKey_nil, ?getCacheKey_cons; intros Heq.
  - by injection Heq as ->.
  - injection Heq as <- _. discriminate H2.
  - injection Heq as -> _. discriminate H1.
  - injection Heq as -> Heq. simpl in H1, H2.
    destruct (decide (d = sep)); [done |].
    by destruct (IH group2 H1 H2 Heq) as [-> ->].
Qed.

(** Two keys built on ids without the separator split at the same place:
    the last [':'] of the key. *)
Lemma getCacheKey_inj_id group1 id1 group2 id2 :
  has_sep id1 = false → has_sep id2 = false →
  getCacheKey group1 id1 = getCacheKey group2 id2 →
  group1 = group2 ∧ id1 = id2.
Proof.
  intros H1 H2. revert group2.
  induction group1 as [|c group1 IH]; intros [|d group2];
    rewrite ?getCacheKey_nil, ?getCacheKey_cons; intros Heq.
  - by injection Heq as ->.
  - injection Heq as _ Heq.
    pose proof (has_sep_key group2 id2). congruence.
  - injection Heq as _ Heq.
    pose proof (has_sep_key group1 id1). congruence.
  - injection Heq as -> Heq.
    by destruct (IH group2 Heq) as [-> ->].
Qed.

End CacheKey.

(** C1 (as amended): two distinct (group, id) pairs have distinct cache keys
    when neither group contains the separator [':'], or neither id does. *)
Theorem getCacheKey_distinct (group1 id1 group2 id2 : string) :
  (has_sep group1 = false ∧ has_sep group2 = false) ∨
  (has_sep id1 = false ∧ has_sep id2 = false) →
  (group1, id1) ≠ (group2, id2) →
  getCacheKey group1 id1 ≠ getCacheKey group2 id2.
Proof.
  intros Hsep Hne Heq. apply Hne.
  destruct Hsep as [[H1 H2] | [H1 H2]].
  - by destruct (getCacheKey_inj_group _ _ _ _ H1 H2 Heq) as [-> ->].
  - by destruct (getCacheKey_inj_id _ _ _ _ H1 H2 Heq) as [-> ->].
Qed.

Lemma getCacheKey_distinct_witness :
  getCacheKey "page" "home" ≠ getCacheKey "page" "about".
Proof.
  apply (getCacheKey_distinct "page" "home" "page" "about").
  - left. split; reflexivity.
  - discriminate.
Defined.

(** C1 (as stated) fails: a separator inside the group moves the split, and
    two distinct pairs share one key. *)
Lemma getCacheKey_collision :
  ("a:b", "c") ≠ ("a", "b:c") ∧ getCacheKey "a:b" "c" = getCacheKey "a" "b:c".
Proof. split; [discriminate | reflexivity]. Qed.

(** ** The writes of [Parse] to its [files] argument *)

Section RangeFiles.
Context `{C : Collaborators}.
Implicit Types (h : Go.heap) (s : Go.slice) (arr : list string).

Lemma rewrite_window_0 f lo arr : Go.rewrite_window f lo 0 arr = arr.
Proof.
  unfold Go.rewrite_window. rewrite take_0, Nat.add_0_r. simpl.
  apply take_drop.
Qed.

Lemma rewrite_window_S f lo n arr v :
  arr !! lo = Some v →
  Go.rewrite_window f (S lo) n (<[lo := f v]> arr) = Go.rewrite_window f lo (S n) arr.
Proof.
  intros Hv. unfold Go.rewrite_window.
  pose proof (lookup_lt_Some _ _ _ Hv) as Hlt.
  rewrite (take_S_r (<[lo := f v]> arr) lo (f v))
    by (apply list_lookup_insert_eq; lia).
  rewrite take_insert_ge by lia.
  rewrite !drop_insert_lt by lia.
  rewrite (drop_S arr v lo) by done. simpl.
  rewrite <- (assoc_L (++)). simpl.
  replace (lo + S n)%nat with (S (lo + n)) by lia. reflexivity.
Qed.

Lemma rewrite_window_elems f arr s :
  (Go.off s + Go.len s ≤ length arr)%nat →
  take (Go.len s) (drop (Go.off s) (Go.rewrite_window f (Go.off s) (Go.len s) arr))
  = f <$> take (Go.len s) (drop (Go.off s) arr).
Proof.
  intros Hlen. unfold Go.rewrite_window.
  rewrite drop_app_length' by (rewrite length_take; lia).
  apply take_app_length'.
  rewrite length_fmap, length_take, length_drop. lia.
Qed.

Lemma store_present h s k v arr :
  h !! Go.ptr s = Some arr →
  Go.store h s k v = <[Go.ptr s := <[(Go.off s + k)%nat := v]> arr]> h.
Proof.
  intros Harr. unfold Go.store. apply map_eq. intros p.
  destruct (decide (Go.ptr s = p)) as [<- | Hne].
  - by rewrite lookup_alter_eq, lookup_insert_eq, Harr.
  - by rewrite lookup_alter_ne, lookup_insert_ne.
Qed.

(** The loop rewrites the window of the slice and nothing else. *)
Lemma range_files_window root s n : ∀ k h arr,
  h !! Go.ptr s = Some arr →
  (Go.off s + k + n ≤ length arr)%nat →
  range_files root s k n h
  = <[Go.ptr s := Go.rewrite_window (file_path root) (Go.off s + k) n arr]> h.
Proof.
  induction n as [|n IH]; intros k h arr Harr Hlen; simpl.
  - rewrite rewrite_window_0. by rewrite insert_id.
  - destruct (lookup_lt_is_Some_2 arr (Go.off s + k)) as [v Hv]; [lia |].
    unfold Go.index at 1. rewrite Harr. simpl. rewrite Hv. simpl.
    rewrite (store_present _ _ _ _ arr) by done.
    rewrite (IH (S k) _ (<[(Go.off s + k)%nat := file_path root v]> arr)).
    + rewrite insert_insert_eq. f_equal.
      replace (Go.off s + S k)%nat with (S (Go.off s + k)) by lia.
      by apply rewrite_window_S.
    + by rewrite lookup_insert_eq.
    + rewrite length_insert. lia.
Qed.

(** The loop leaves the other arrays alone. *)
Lemma range_files_other root s n p : ∀ k h,
  p ≠ Go.ptr s → range_files root s k n h !! p = h !! p.
Proof.
  induction n as [|n IH]; intros k h Hne; simpl; [done |].
  rewrite IH by done. unfold Go.store. by rewrite lookup_alter_ne.
Qed.

Lemma range_files_elems root s h :
  Go.valid h s →
  Go.elems (range_files root s 0 (Go.len s) h) s
  = file_path root <$> Go.elems h s.
Proof.
  intros (arr & Harr & Hlen). unfold Go.elems.
  rewrite (range_files_window _ _ _ _ _ arr), Nat.add_0_r by (done || lia).
  rewrite lookup_insert_eq, Harr. simpl.
  by apply rewrite_window_elems.
Qed.

Lemma range_files_valid root s h :
  Go.valid h s → Go.valid (range_files root s 0 (Go.len s) h) s.
Proof.
  intros (arr & Harr & Hlen).
  rewrite (range_files_window _ _ _ _ _ arr), Nat.add_0_r by (done || lia).
  eexists. rewrite lookup_insert_eq. split; [done |].
  unfold Go.rewrite_window.
  rewrite !length_app, length_fmap, !length_take, !length_drop. lia.
Qed.

End RangeFiles.

(** ** [Load], [Parse] and [Execute] on one renderer *)

Section Lifecycle.
Context `{C : Collaborators}.
Implicit Types (w : World) (group id name : string) (files directories : Go.slice).

Lemma Load_world group id w : snd (Load group id w) = w.
Proof.
  unfold Load.
  by destruct (templateCache (renderer w) !! getCacheKey group id) as [[]|].
Qed.

Lemma Load_present group id w tmpl :
  templateCache (renderer w) !! getCacheKey group id = Some (any_Template tmpl) →
  Load group id w = (Ok tmpl, w).
Proof. intros H. unfold Load. by rewrite H. Qed.

Lemma Load_absent group id w :
  templateCache (renderer w) !! getCacheKey group id = None →
  Load group id w = (Err NotFoundError, w).
Proof. intros H. unfold Load. by rewrite H. Qed.

Lemma reparse_local group id w :
  App_Environment (config (renderer w)) = EnvLocal → reparse group id w = true.
Proof.
  intros H. unfold reparse. destruct (fst (Load group id w)); [|done].
  by apply bool_decide_eq_true.
Qed.

Lemma reparse_cached group id w tmpl :
  templateCache (renderer w) !! getCacheKey group id = Some (any_Template tmpl) →
  App_Environment (config (renderer w)) ≠ EnvLocal →
  reparse group id w = false.
Proof.
  intros H Henv. unfold reparse. rewrite (Load_present _ _ _ _ H). simpl.
  by apply bool_decide_eq_false.
Qed.

(** [Parse] skips the parse only over a cached template, outside the local
    environment. *)
Lemma reparse_false group id w :
  reparse group id w = false →
  (∃ tmpl, templateCache (renderer w) !! getCacheKey group id
           = Some (any_Template tmpl)) ∧
  App_Environment (config (renderer w)) ≠ EnvLocal.
Proof.
  unfold reparse, Load.
  destruct (templateCache (renderer w) !! getCacheKey group id) as [[tmpl|]|];
    simpl; try done.
  intros H%bool_decide_eq_false. eauto.
Qed.

Lemma rewrite_files_renderer files w :
  renderer (rewrite_files files w) = renderer w.
Proof. unfold rewrite_files. by destruct (decide _). Qed.

Lemma rewrite_files_fs files w : fs (rewrite_files files w) = fs w.
Proof. unfold rewrite_files. by destruct (decide _). Qed.

Lemma rewrite_files_elems files w :
  (0 < Go.len files)%nat → Go.valid (heap w) files →
  Go.elems (heap (rewrite_files files w)) files
  = file_path (templatesPath (renderer w)) <$> Go.elems (heap w) files.
Proof.
  intros Hlen Hvalid. unfold rewrite_files. rewrite decide_True by done.
  by apply range_files_elems.
Qed.

Lemma rewrite_files_valid files w :
  Go.valid (heap w) files → Go.valid (heap (rewrite_files files w)) files.
Proof.
  intros Hvalid. unfold rewrite_files. destruct (decide _); [|done].
  by apply range_files_valid.
Qed.

(** The three ways out of [Parse]. *)
Lemma Parse_skip group id name files directories w :
  reparse group id w = false →
  Parse group id name files directories w = (None, w).
Proof. intros H. unfold Parse. by rewrite H. Qed.

Lemma Parse_error group id name files directories w e :
  reparse group id w = true →
  parse_templates name files directories (rewrite_files files w) = inr e →
  Parse group id name files directories w
  = (Some (template_error e), rewrite_files files w).
Proof. intros H He. unfold Parse. by rewrite H, He. Qed.

Lemma Parse_store group id name files directories w parsed :
  reparse group id w = true →
  parse_templates name files directories (rewrite_files files w) = inl parsed →
  Parse group id name files directories w
  = (None, Store (getCacheKey group id) (any_Template parsed)
             (rewrite_files files w)).
Proof. intros H Hp. unfold Parse. by rewrite H, Hp. Qed.

(** [Parse] writes to the slices only in its loop over [files], and never
    to the fixed fields of the renderer. *)
Lemma Parse_heap group id name files directories w :
  reparse group id w = true →
  heap (snd (Parse group id name files directories w))
  = heap (rewrite_files files w).
Proof.
  intros H. unfold Parse. rewrite H.
  by destruct (parse_templates _ _ _ _).
Qed.

Lemma Parse_fields group id name files directories w :
  let w' := snd (Parse group id name files directories w) in
  funcMap (renderer w') = funcMap (renderer w) ∧
  templatesPath (renderer w') = templatesPath (renderer w) ∧
  config (renderer w') = config (renderer w) ∧
  fs w' = fs w.
Proof.
  unfold Parse. destruct (reparse group id w); [|done].
  destruct (parse_templates _ _ _ _); simpl;
    by rewrite ?rewrite_files_renderer, ?rewrite_files_fs.
Qed.

(** A call that returns an error has stored nothing. *)
Lemma Parse_error_keeps_cache group id name files directories w err :
  fst (Parse group id name files directories w) = Some err →
  templateCache (renderer (snd (Parse group id name files directories w)))
  = templateCache (renderer w).
Proof.
  unfold Parse. destruct (reparse group id w); [|done].
  destruct (parse_templates _ _ _ _); simpl; [done |].
  by rewrite rewrite_files_renderer.
Qed.

(** The loop over the directories fails exactly when the glob of one of
    them does, those before it having been parsed. *)
Lemma range_directories_fails w parsed dirs e :
  range_directories w parsed dirs = inr e ↔
  ∃ (before : list string) dir after parsed',
    dirs = (before ++ dir :: after)%list ∧
    range_directories w parsed before = inl parsed' ∧
    ParseGlob (fs w) parsed' (dir_pattern (templatesPath (renderer w)) dir)
    = inr e.
Proof.
  revert parsed. induction dirs as [|d dirs IH]; intros parsed; simpl.
  - split; [done |]. intros (before & dir & after & parsed' & Heq & _).
    by destruct before.
  - destruct (ParseGlob (fs w) parsed _) as [parsed1|e1] eqn:Hglob.
    + rewrite IH. split.
      * intros (before & dir & after & parsed' & -> & Hbefore & Hfail).
        exists (d :: before), dir, after, parsed'. simpl.
        by rewrite Hglob.
      * intros (before & dir & after & parsed' & Heq & Hbefore & Hfail).
        destruct before as [|d' before]; simpl in Heq, Hbefore;
          injection Heq as <- ->.
        -- injection Hbefore as <-. congruence.
        -- rewrite Hglob in Hbefore. eauto 8.
    + split.
      * intros [= ->]. by exists [], d, dirs, parsed.
      * intros (before & dir & after & parsed' & Heq & Hbefore & Hfail).
        destruct before as [|d' before]; simpl in Heq, Hbefore;
          injection Heq as <- ->.
        -- injection Hbefore as <-. congruence.
        -- by rewrite Hglob in Hbefore.
Qed.

(** The parse of [Parse] fails exactly when [ParseFiles] fails on a
    non-empty [files], or the loop over the directories fails after it. *)
Lemma parse_templates_fails name files directories w e :
  parse_templates name files directories w = inr e ↔
  ((0 < Go.len files)%nat ∧
   ParseFiles (fs w)
     (Funcs (template_New (name +:+ TemplateExt)) (funcMap (renderer w)))
     (Go.elems (heap w) files) = inr e) ∨
  (∃ parsed,
     (if decide (0 < Go.len files)%nat
      then ParseFiles (fs w)
             (Funcs (template_New (name +:+ TemplateExt)) (funcMap (renderer w)))
             (Go.elems (heap w) files)
      else inl (Funcs (template_New (name +:+ TemplateExt))
                  (funcMap (renderer w)))) = inl parsed ∧
     range_directories w parsed (Go.elems (heap w) directories) = inr e).
Proof.
  unfold parse_templates.
  destruct (decide (0 < Go.len files)%nat) as [Hlen|Hlen].
  - destruct (ParseFiles _ _ _) as [parsed|e1].
    + split; [eauto |]. intros [[_ [=]] | (parsed' & [= <-] & H)]. done.
    + split; [intros [= ->]; eauto |].
      by intros [[_ [= ->]] | (parsed' & [=] & _)].
  - split; [eauto |]. intros [[? _] | (parsed' & [= <-] & H)]; done.
Qed.

(** What [parse_templates] builds does not depend on the cache. *)
Lemma parse_templates_with_cache cache name files directories w :
  parse_templates name files directories (rewrite_files files (with_cache cache w))
  = parse_templates name files directories (rewrite_files files w).
Proof.
  assert (∀ parsed dirs,
    range_directories (rewrite_files files (with_cache cache w)) parsed dirs
    = range_directories (rewrite_files files w) parsed dirs) as Hdirs.
  { intros parsed dirs. revert parsed.
    induction dirs as [|dir dirs IH]; intros parsed; simpl; [done |].
    rewrite !rewrite_files_fs, !rewrite_files_renderer. simpl.
    destruct (ParseGlob _ _ _); [apply IH | done]. }
  unfold parse_templates.
  rewrite !rewrite_files_renderer. simpl.
  assert (heap (rewrite_files files (with_cache cache w))
          = heap (rewrite_files files w)) as ->.
  { unfold rewrite_files. by destruct (decide _). }
  rewrite !rewrite_files_fs. simpl.
  destruct (decide _); [destruct (ParseFiles _ _ _) |]; by rewrite ?Hdirs.
Qed.

Lemma Execute_world group id name data w :
  snd (Execute group id name data w) = w.
Proof.
  unfold Execute, Load.
  destruct (templateCache (renderer w) !! getCacheKey group id) as [[tmpl|]|];
    simpl; try done.
  by destruct (ExecuteTemplate _ _ _) as [buf [e|]].
Qed.

Lemma ParseAndExecute_world group id name files directories data w :
  snd (ParseAndExecute group id name files directories data w)
  = snd (Parse group id name files directories w).
Proof.
  unfold ParseAndExecute.
  destruct (Parse group id name files directories w) as [[err|] w']; [done |].
  pose proof (Execute_world group id name data w') as H.
  by destruct (Execute group id name data w') as [[buf|err] w''].
Qed.

Lemma Parse_cache_ok group id name files directories w :
  cache_ok w → cache_ok (snd (Parse group id name files directories w)).
Proof.
  intros Hok. unfold Parse. destruct (reparse group id w); [|done].
  destruct (parse_templates _ _ _ _) as [parsed|e]; simpl.
  - intros key v. unfold cache_ok in Hok. simpl.
    rewrite rewrite_files_renderer.
    destruct (decide (getCacheKey group id = key)) as [<- | Hne].
    + rewrite lookup_insert_eq. intros [= <-]. eauto.
    + rewrite lookup_insert_ne by done. apply Hok.
  - unfold cache_ok. rewrite rewrite_files_renderer. apply Hok.
Qed.

Lemma reachable_cache_ok w : reachable w → cache_ok w.
Proof.
  induction 1 as [cfg h f | w cfg h f _ IH | w group id _ IH
                 | w group id name files directories _ IH
                 | w group id name data _ IH
                 | w group id name files directories data _ IH].
  - intros key v. simpl. by rewrite lookup_empty.
  - exact IH.
  - by rewrite Load_world.
  - by apply Parse_cache_ok.
  - by rewrite Execute_world.
  - rewrite ParseAndExecute_world. by apply Parse_cache_ok.
Qed.

(** The parse of [Parse] fails exactly when one of its calls to
    [ParseFiles] and [ParseGlob] does. *)
Lemma parse_templates_load_fails name files directories w e :
  parse_templates name files directories w = inr e ↔
  load_fails name files directories w e.
Proof.
  rewrite parse_templates_fails. unfold load_fails. cbv zeta.
  split.
  - intros [Hfiles | (parsed & Hparsed & Hdirs)]; [by left |].
    apply range_directories_fails in Hdirs
      as (before & dir & after & parsed' & Heq & Hbefore & Hglob).
    right. by exists parsed, before, dir, after, parsed'.
  - intros [Hfiles | (parsed & before & dir & after & parsed'
                      & Hparsed & Heq & Hbefore & Hglob)]; [by left |].
    right. exists parsed. split; [done |].
    apply range_directories_fails. by exists before, dir, after, parsed'.
Qed.

(** Every entry of the cache was stored for one of the recorded pairs. *)
Lemma stored_pairs_keys pairs w :
  stored_pairs pairs w →
  ∀ key, is_Some (templateCache (renderer w) !! key) →
    ∃ g i, (g, i) ∈ pairs ∧ getCacheKey g i = key.
Proof.
  assert (∀ pairs w group id name files directories,
    (∀ key, is_Some (templateCache (renderer w) !! key) →
       ∃ g i, (g, i) ∈ pairs ∧ getCacheKey g i = key) →
    ∀ key,
      is_Some (templateCache
                 (renderer (snd (Parse group id name files directories w)))
               !! key) →
      ∃ g i, (g, i) ∈ record_store group id name files directories w pairs ∧
             getCacheKey g i = key) as HParse.
  { clear. intros pairs w group id name files directories IH key.
    unfold record_store, Parse. destruct (reparse group id w); [|apply IH].
    destruct (parse_templates _ _ _ _) as [parsed|e]; simpl;
      rewrite rewrite_files_renderer; [|apply IH].
    destruct (decide (getCacheKey group id = key)) as [<- | Hne].
    - intros _. exists group, id. split; [apply list_elem_of_here | done].
    - rewrite lookup_insert_ne by done. intros Hin.
      destruct (IH key Hin) as (g & i & Hgi & Hkey).
      exists g, i. split; [by apply list_elem_of_further | done]. }
  induction 1 as [cfg h f | pairs w cfg h f _ IH | pairs w group id _ IH
                 | pairs w group id name files directories _ IH
                 | pairs w group id name data _ IH
                 | pairs w group id name files directories data _ IH].
  - intros key. simpl. rewrite lookup_empty. by intros [? ?].
  - exact IH.
  - by rewrite Load_world.
  - by apply HParse.
  - by rewrite Execute_world.
  - rewrite ParseAndExecute_world. by apply HParse.
Qed.

End Lifecycle.

(** ** The life cycle of a cache entry *)

Section Claims.
Context `{C : Collaborators}.
Implicit Types (w : World) (group id name : string) (files directories : Go.slice).

(** C2: a call to [Parse] that parses, with a non-empty [files], leaves in
    the caller's slice [templatesPath + "/" + v + extension] for each
    element [v], whether it then returns an error or not; in the local
    environment a second call on the same slice therefore starts from the
    rewritten elements and prefixes them again. *)
Theorem Parse_rewrites_files group id name files directories w :
  reparse group id w = true →
  (0 < Go.len files)%nat →
  Go.valid (heap w) files →
  let root := templatesPath (renderer w) in
  let w' := snd (Parse group id name files directories w) in
  Go.elems (heap w') files = file_path root <$> Go.elems (heap w) files ∧
  (App_Environment (config (renderer w)) = EnvLocal →
   ∀ group' id' name' directories',
     Go.elems (heap (snd (Parse group' id' name' files directories' w'))) files
     = (λ v, file_path root (file_path root v)) <$> Go.elems (heap w) files).
Proof.
  intros Hre Hlen Hvalid root w'.
  assert (Go.elems (heap w') files = file_path root <$> Go.elems (heap w) files)
    as Hfirst.
  { unfold w'. rewrite Parse_heap by done. by apply rewrite_files_elems. }
  split; [done |].
  intros Henv group' id' name' directories'.
  destruct (Parse_fields group id name files directories w)
    as (_ & Hroot & Hcfg & _). fold w' in Hroot, Hcfg.
  rewrite Parse_heap by (apply reparse_local; by rewrite Hcfg).
  rewrite rewrite_files_elems, Hroot, Hfirst; [| done |].
  - by rewrite <- list_fmap_compose.
  - unfold w'. rewrite Parse_heap by done. by apply rewrite_files_valid.
Qed.

(** C3: when the load of a listed file fails ([ParseFiles] returns an
    error) or the glob of a directory fails ([ParseGlob] returns an error,
    the files and the directories before it having been parsed), [Parse]
    returns that error and the cache is what it was before the call. *)
Theorem Parse_failure_keeps_cache group id name files directories w e :
  reparse group id w = true →
  load_fails name files directories (rewrite_files files w) e →
  fst (Parse group id name files directories w) = Some (template_error e) ∧
  templateCache (renderer (snd (Parse group id name files directories w)))
  = templateCache (renderer w).
Proof.
  intros Hre He%parse_templates_load_fails.
  rewrite (Parse_error _ _ _ _ _ _ e) by done. simpl.
  by rewrite rewrite_files_renderer.
Qed.

(** C4: outside the local environment, [Parse] on a key that holds a
    template returns [nil] and changes nothing; so after a first [Parse]
    that returned [nil], every further [Parse] on that key leaves the
    world, and with it the cached template, as it is. *)
Theorem Parse_cached_noop group id w :
  App_Environment (config (renderer w)) ≠ EnvLocal →
  (∀ tmpl name files directories,
     templateCache (renderer w) !! getCacheKey group id = Some (any_Template tmpl) →
     Parse group id name files directories w = (None, w)) ∧
  (∀ name files directories w1,
     Parse group id name files directories w = (None, w1) →
     (∃ tmpl, templateCache (renderer w1) !! getCacheKey group id
              = Some (any_Template tmpl)) ∧
     ∀ name' files' directories',
       Parse group id name' files' directories' w1 = (None, w1)).
Proof.
  intros Henv. split.
  - intros tmpl name files directories Hin.
    apply Parse_skip. by apply (reparse_cached _ _ _ tmpl).
  - intros name files directories w1 HParse.
    assert (∃ tmpl, templateCache (renderer w1) !! getCacheKey group id
                    = Some (any_Template tmpl)) as [tmpl Hin].
    { unfold Parse in HParse.
      destruct (reparse group id w) eqn:Hre.
      - destruct (parse_templates _ _ _ _) as [parsed|e]; [|done].
        injection HParse as <-. simpl. rewrite lookup_insert_eq. eauto.
      - injection HParse as <-. by apply reparse_false in Hre as [? _]. }
    split; [eauto |].
    intros name' files' directories'. apply Parse_skip.
    apply (reparse_cached _ _ _ tmpl); [done |].
    destruct (Parse_fields group id name files directories w)
      as (_ & _ & Hcfg & _).
    rewrite HParse in Hcfg. simpl in Hcfg. by rewrite Hcfg.
Qed.

(** C5: in the local environment [Parse] parses whether or not the key is
    cached, and on success the entry of the key is the template just
    built, which does not depend on what the cache held. *)
Theorem Parse_local_reparses group id name files directories w :
  App_Environment (config (renderer w)) = EnvLocal →
  reparse group id w = true ∧
  (∀ parsed,
     parse_templates name files directories (rewrite_files files w) = inl parsed →
     fst (Parse group id name files directories w) = None ∧
     templateCache (renderer (snd (Parse group id name files directories w)))
     = <[getCacheKey group id := any_Template parsed]> (templateCache (renderer w))) ∧
  (∀ cache,
     fst (Parse group id name files directories (with_cache cache w))
     = fst (Parse group id name files directories w) ∧
     (fst (Parse group id name files directories w) = None →
      templateCache (renderer (snd (Parse group id name files directories
                                      (with_cache cache w))))
        !! getCacheKey group id
      = templateCache (renderer (snd (Parse group id name files directories w)))
        !! getCacheKey group id)).
Proof.
  intros Henv. pose proof (reparse_local group id w Henv) as Hre.
  split; [done |]. split.
  - intros parsed Hp. rewrite (Parse_store _ _ _ _ _ _ parsed) by done. simpl.
    by rewrite rewrite_files_renderer.
  - intros cache.
    assert (reparse group id (with_cache cache w) = true) as Hre'
      by by apply reparse_local.
    unfold Parse. rewrite Hre, Hre', parse_templates_with_cache.
    destruct (parse_templates _ _ _ _) as [parsed|e]; simpl; [|done].
    by rewrite !lookup_insert_eq.
Qed.

(** [Execute] on a key that is not in the cache returns the not-found
    error of [Load] and no buffer. *)
Lemma Execute_not_found group id name data w :
  templateCache (renderer w) !! getCacheKey group id = None →
  Execute group id name data w = (Err NotFoundError, w).
Proof. intros H. unfold Execute. by rewrite (Load_absent _ _ _ H). Qed.

(** In particular [Execute] on a renderer just made finds nothing. *)
Lemma Execute_new_renderer cfg h f group id name data :
  Execute group id name data
    {| renderer := NewTemplateRenderer cfg; heap := h; fs := f |}
  = (Err NotFoundError,
     {| renderer := NewTemplateRenderer cfg; heap := h; fs := f |}).
Proof. apply Execute_not_found. simpl. apply lookup_empty. Qed.

(** C6 (as amended): when no call has stored an entry for the pair
    (group, id) or for a pair with the same cache key, [Execute] returns
    the not-found error of [Load] and no buffer. *)
Theorem Execute_never_stored pairs w group id name data :
  stored_pairs pairs w →
  (∀ g i, (g, i) ∈ pairs → getCacheKey g i ≠ getCacheKey group id) →
  Execute group id name data w = (Err NotFoundError, w).
Proof.
  intros Hpairs Hkeys. unfold Execute. rewrite Load_absent; [done |].
  destruct (templateCache (renderer w) !! getCacheKey group id) as [v|] eqn:Hin;
    [|done].
  destruct (stored_pairs_keys pairs w Hpairs (getCacheKey group id))
    as (g & i & Hgi & Hkey); [by rewrite Hin |].
  by destruct (Hkeys g i Hgi).
Qed.

(** C7: [Execute] on a cached set that defines no template for the name
    (with the extension, as [Execute] looks it up) returns the error of
    [ExecuteTemplate] and no buffer. *)
Theorem Execute_undefined_name group id name data w tmpl :
  templateCache (renderer w) !! getCacheKey group id = Some (any_Template tmpl) →
  Lookup tmpl (name +:+ TemplateExt) = None →
  ∃ e, Execute group id name data w = (Err (template_error e), w).
Proof.
  intros Hin Hundef. unfold Execute. rewrite (Load_present _ _ _ _ Hin).
  destruct (ExecuteTemplate_undefined tmpl _ data Hundef) as (out & e & ->).
  eauto.
Qed.

(** C8: [Execute], failing or not, leaves the cache (and the rest of the
    world) unchanged. *)
Theorem Execute_keeps_cache group id name data w :
  snd (Execute group id name data w) = w ∧
  templateCache (renderer (snd (Execute group id name data w)))
  = templateCache (renderer w).
Proof. by rewrite Execute_world. Qed.

(** C9: in every world a program reaches, each entry of the cache is a
    template, [Load] on a present key returns it, and [Load] never returns
    its cast error. *)
Theorem Load_never_TypeError w :
  reachable w →
  cache_ok w ∧
  (∀ group id,
     is_Some (templateCache (renderer w) !! getCacheKey group id) →
     ∃ tmpl, templateCache (renderer w) !! getCacheKey group id
             = Some (any_Template tmpl) ∧
             Load group id w = (Ok tmpl, w)) ∧
  (∀ group id, fst (Load group id w) ≠ Err TypeError).
Proof.
  intros Hok%reachable_cache_ok. split; [done |]. split.
  - intros group id [v Hv]. destruct (Hok _ _ Hv) as [tmpl ->].
    exists tmpl. split; [done |]. by apply Load_present.
  - intros group id. unfold Load.
    destruct (templateCache (renderer w) !! getCacheKey group id)
      as [v|] eqn:Hv; [|done].
    by destruct (Hok _ _ Hv) as [tmpl ->].
Qed.

End Claims.

(** ** The renderer on the sample templates *)

#[local] Existing Instance Sample.collaborators.

Lemma Parse_rewrites_files_witness :
  fst (Parse "page" "home" "index" Sample.missing_files Sample.nil_slice
         (Sample.world "local"))
  = Some (template_error
            "open /app/templates/missing.gohtml: no such file or directory") ∧
  Go.elems
    (heap (snd (Parse "page" "home" "index" Sample.missing_files
                  Sample.nil_slice (Sample.world "local"))))
    Sample.missing_files
  = ["/app/templates/missing.gohtml"] ∧
  Go.elems
    (heap (snd (Parse "page" "home" "index" Sample.missing_files
                  Sample.nil_slice
                  (snd (Parse "page" "home" "index" Sample.missing_files
                          Sample.nil_slice (Sample.world "local"))))))
    Sample.missing_files
  = ["/app/templates//app/templates/missing.gohtml.gohtml"].
Proof.
  assert (Go.valid (heap (Sample.world "local")) Sample.missing_files) as Hvalid.
  { exists ["missing"]. split; [reflexivity | simpl; lia]. }
  destruct (Parse_rewrites_files "page" "home" "index" Sample.missing_files
              Sample.nil_slice (Sample.world "local") eq_refl
              (Nat.lt_0_succ 0) Hvalid) as [H1 H2].
  split; [reflexivity |]. split.
  - rewrite H1. reflexivity.
  - rewrite (H2 eq_refl). reflexivity.
Defined.

Lemma Parse_failure_keeps_cache_witness :
  (fst (Parse "page" "home" "index" Sample.missing_files Sample.nil_slice
          (Sample.served "local"))
   = Some (template_error
             "open /app/templates/missing.gohtml: no such file or directory") ∧
   templateCache
     (renderer (snd (Parse "page" "home" "index" Sample.missing_files
                       Sample.nil_slice (Sample.served "local"))))
   = templateCache (renderer (Sample.served "local"))) ∧
  (fst (Parse "page" "home" "about" Sample.about_files Sample.missing_files
          (Sample.served "local"))
   = Some (template_error
             "html/template: pattern matches no files: /app/templates/missing/*.gohtml") ∧
   templateCache
     (renderer (snd (Parse "page" "home" "about" Sample.about_files
                       Sample.missing_files (Sample.served "local"))))
   = templateCache (renderer (Sample.served "local"))).
Proof.
  split.
  - apply (Parse_failure_keeps_cache "page" "home" "index"
             Sample.missing_files Sample.nil_slice (Sample.served "local"));
      [reflexivity |].
    left. split; [simpl; lia | reflexivity].
  - apply (Parse_failure_keeps_cache "page" "home" "about"
             Sample.about_files Sample.missing_files (Sample.served "local"));
      [reflexivity |].
    right.
    exists {| Sample.tname := "about.gohtml";
              Sample.tset := {[ "about.gohtml" := "<h1>about</h1>" ]} |},
           [], "missing", [],
           {| Sample.tname := "about.gohtml";
              Sample.tset := {[ "about.gohtml" := "<h1>about</h1>" ]} |}.
    repeat split; reflexivity.
Defined.

Lemma Parse_cached_noop_witness :
  Parse "page" "home" "about" Sample.about_files Sample.nil_slice
    (Sample.served "production")
  = (None, Sample.served "production").
Proof.
  assert (App_Environment (config (renderer (Sample.world "production")))
          ≠ EnvLocal) as Henv by discriminate.
  destruct (Parse_cached_noop "page" "home" (Sample.world "production") Henv)
    as [_ Hsecond].
  apply (Hsecond "index" Sample.index_files Sample.components).
  reflexivity.
Defined.

Lemma Parse_local_reparses_witness :
  fst (Parse "page" "home" "about" Sample.about_files Sample.nil_slice
         (Sample.served "local")) = None ∧
  templateCache
    (renderer (snd (Parse "page" "home" "about" Sample.about_files
                      Sample.nil_slice (Sample.served "local"))))
  = {[ "page:home" :=
         any_Template
           {| Sample.tname := "about.gohtml";
              Sample.tset := {[ "about.gohtml" := "<h1>about</h1>" ]} |} ]}.
Proof.
  destruct (Parse_local_reparses "page" "home" "about" Sample.about_files
              Sample.nil_slice (Sample.served "local") eq_refl)
    as (_ & Hstore & _).
  destruct (Hstore
              {| Sample.tname := "about.gohtml";
                 Sample.tset := {[ "about.gohtml" := "<h1>about</h1>" ]} |}
              eq_refl) as [Hnil Hcache].
  split; [exact Hnil |]. rewrite Hcache. reflexivity.
Defined.

Lemma Execute_not_found_witness :
  Execute "page" "about" "about" (Sample.data "!") (Sample.served "production")
  = (Err NotFoundError, Sample.served "production").
Proof.
  apply (Execute_not_found "page" "about" "about" (Sample.data "!")
           (Sample.served "production")).
  reflexivity.
Defined.

Lemma Execute_never_stored_witness :
  Execute "page" "about" "about" (Sample.data "!") (Sample.served "production")
  = (Err NotFoundError, Sample.served "production").
Proof.
  apply (Execute_never_stored [("page", "home")] (Sample.served "production")
           "page" "about" "about" (Sample.data "!")).
  - exact (stored_Parse [] (Sample.world "production") "page" "home" "index"
             Sample.index_files Sample.components
             (stored_new {| App_Environment := "production" |}
                Sample.arrays Sample.disk)).
  - intros g i [= -> ->]%list_elem_of_singleton. discriminate.
Defined.

(** C6 (as stated) fails: after a single [Parse], for the pair
    (["a:b"], ["c"]), nothing was ever stored for the pair (["a"], ["b:c"]),
    yet [Execute] for that pair finds the entry of the shared key
    ["a:b:c"] and renders it. *)
Lemma Execute_after_colliding_Parse :
  stored_pairs [("a:b", "c")]
    (snd (Parse "a:b" "c" "index" Sample.index_files Sample.nil_slice
            (Sample.world "production"))) ∧
  (("a", "b:c") ∉ [("a:b", "c")]) ∧
  fst (Execute "a" "b:c" "index" (Sample.data "!")
         (snd (Parse "a:b" "c" "index" Sample.index_files Sample.nil_slice
                 (Sample.world "production"))))
  = Ok "<h1>index</h1>!".
Proof.
  split; [|split].
  - exact (stored_Parse [] (Sample.world "production") "a:b" "c" "index"
             Sample.index_files Sample.nil_slice
             (stored_new {| App_Environment := "production" |}
                Sample.arrays Sample.disk)).
  - intros [=]%list_elem_of_singleton.
  - reflexivity.
Qed.

Lemma Execute_undefined_name_witness :
  ∃ e, Execute "page" "home" "contact" (Sample.data "!") (Sample.served "production")
       = (Err (template_error e), Sample.served "production").
Proof.
  apply (Execute_undefined_name "page" "home" "contact" (Sample.data "!")
           (Sample.served "production")
           {| Sample.tname := "index.gohtml";
              Sample.tset := {[ "index.gohtml" := "<h1>index</h1>";
                                "nav.gohtml" := "<nav/>" ]} |});
    reflexivity.
Defined.

Lemma Load_never_TypeError_witness :
  ∃ tmpl,
    templateCache (renderer (Sample.served "production")) !! getCacheKey "page" "home"
    = Some (any_Template tmpl) ∧
    Load "page" "home" (Sample.served "production")
    = (Ok tmpl, Sample.served "production").
Proof.
  assert (reachable (Sample.served "production")) as Hreach
    by apply reach_Parse, reach_new.
  destruct (Load_never_TypeError (Sample.served "production") Hreach)
    as (_ & Hload & _).
  apply (Hload "page" "home"). eexists. reflexivity.
Defined.

(** A rendered page: the request of the specification's example. *)
Example ParseAndExecute_index :
  fst (ParseAndExecute "page" "home" "index" Sample.index_files
         Sample.components (Sample.data "Hi") (Sample.world "production"))
  = Ok "<h1>index</h1>Hi".
Proof. reflexivity. Qed.

(** ** Two requests in parallel *)

Section Parallel.
Context `{C : Collaborators}.
Implicit Types (w : World) (c : request) (p : pc).

Lemma agree_refl c w : agree c w w.
Proof. by repeat split. Qed.

Lemma agree_sym c w w' : agree c w w' → agree c w' w.
Proof. intros (? & ? & ? & ? & ? & ? & ?). by repeat split. Qed.

Lemma agree_trans c w1 w2 w3 : agree c w1 w2 → agree c w2 w3 → agree c w1 w3.
Proof.
  intros (? & ? & ? & ? & ? & ? & ?) (? & ? & ? & ? & ? & ? & ?).
  repeat split; congruence.
Qed.

(** What a handler computes depends on the part of the memory it sees. *)
Lemma agree_Load c w w' :
  agree c w w' →
  fst (Load (r_group c) (r_id c) w) = fst (Load (r_group c) (r_id c) w').
Proof.
  intros (Hkey & _). unfold Load. fold (request_key c). rewrite Hkey.
  by destruct (templateCache (renderer w') !! request_key c) as [[]|].
Qed.

Lemma agree_reparse c w w' :
  agree c w w' → reparse (r_group c) (r_id c) w = reparse (r_group c) (r_id c) w'.
Proof.
  intros H. unfold reparse. rewrite (agree_Load c w w' H).
  destruct H as (_ & _ & _ & -> & _). done.
Qed.

Lemma agree_range_directories w w' parsed dirs :
  templatesPath (renderer w) = templatesPath (renderer w') → fs w = fs w' →
  range_directories w parsed dirs = range_directories w' parsed dirs.
Proof.
  intros Hroot Hfs. revert parsed.
  induction dirs as [|dir dirs IH]; intros parsed; simpl; [done |].
  rewrite Hroot, Hfs. destruct (ParseGlob _ _ _); [apply IH | done].
Qed.

Lemma agree_parse_templates c w w' :
  agree c w w' →
  parse_templates (r_name c) (r_files c) (r_directories c) w
  = parse_templates (r_name c) (r_files c) (r_directories c) w'.
Proof.
  intros (_ & Hfm & Hroot & _ & Hfiles & Hdirs & Hfs).
  unfold parse_templates, Go.elems.
  rewrite Hfm, Hfiles, Hfs.
  destruct (decide _); [destruct (ParseFiles _ _ _) |]; try done;
    rewrite Hdirs; by apply agree_range_directories.
Qed.

Lemma agree_Execute c w w' :
  agree c w w' →
  fst (Execute (r_group c) (r_id c) (r_name c) (r_data c) w)
  = fst (Execute (r_group c) (r_id c) (r_name c) (r_data c) w').
Proof.
  intros H%agree_Load. unfold Execute.
  destruct (Load (r_group c) (r_id c) w) as [[tmpl|err] w1],
           (Load (r_group c) (r_id c) w') as [[tmpl'|err'] w1'];
    simpl in H; simplify_eq; [|done].
  by destruct (ExecuteTemplate _ _ _) as [buf [e|]].
Qed.

(** A step of a handler, taken in two memories it cannot tell apart, leads
    to the same place and to two memories it cannot tell apart. *)
Lemma thread_step_agree c p w w' :
  agree c w w' →
  fst (thread_step c p w) = fst (thread_step c p w') ∧
  agree c (snd (thread_step c p w)) (snd (thread_step c p w')).
Proof.
  intros H. destruct p as [|k| |parsed| |r]; simpl.
  - rewrite (agree_reparse c w w' H).
    by destruct (reparse _ _ w'); [destruct (decide _) |].
  - destruct (decide _); [|done]. simpl.
    destruct H as (Hkey & Hfm & Hroot & Hcfg & Hfiles & Hdirs & Hfs).
    unfold Go.index, Go.store. rewrite Hfiles, Hroot.
    repeat split; simpl; try done.
    + by rewrite !lookup_alter_eq, Hfiles.
    + rewrite !lookup_alter. destruct (decide _); by rewrite ?Hfiles, ?Hdirs.
  - rewrite (agree_parse_templates c w w' H).
    by destruct (parse_templates _ _ _ w').
  - split; [done |].
    destruct H as (Hkey & Hfm & Hroot & Hcfg & Hfiles & Hdirs & Hfs).
    repeat split; simpl; try done.
    by rewrite !lookup_insert_eq.
  - pose proof (agree_Execute c w w' H) as HE.
    pose proof (Execute_world (r_group c) (r_id c) (r_name c) (r_data c) w) as Hw.
    pose proof (Execute_world (r_group c) (r_id c) (r_name c) (r_data c) w') as Hw'.
    destruct (Execute _ _ _ _ w) as [r1 w1], (Execute _ _ _ _ w') as [r2 w2].
    simpl in *. by subst.
  - done.
Qed.

(** A step of a handler leaves what the other handler sees as it is. *)
Lemma thread_step_frame c c' p w :
  request_key c ≠ request_key c' →
  Go.ptr (r_files c) ≠ Go.ptr (r_files c') →
  Go.ptr (r_files c) ≠ Go.ptr (r_directories c') →
  agree c' w (snd (thread_step c p w)).
Proof.
  intros Hkey Hfiles Hdirs. destruct p as [|k| |parsed| |r]; simpl.
  - destruct (reparse _ _ w); apply agree_refl.
  - destruct (decide _); [|apply agree_refl]. simpl.
    repeat split; simpl; try done; unfold Go.store;
      by rewrite lookup_alter_ne.
  - destruct (parse_templates _ _ _ w); apply agree_refl.
  - repeat split; simpl; try done. by rewrite lookup_insert_ne.
  - pose proof (Execute_world (r_group c) (r_id c) (r_name c) (r_data c) w) as Hw.
    destruct (Execute _ _ _ _ w) as [r1 w1]. simpl in *. subst.
    apply agree_refl.
  - apply agree_refl.
Qed.

End Parallel.

Section Schedules.
Context `{C : Collaborators}.
Implicit Types (w : World) (c : request) (p : pc) (schedule : list bool).

Lemma thread_steps_add c n m : ∀ p w,
  thread_steps c (n + m) p w
  = thread_steps c m (fst (thread_steps c n p w)) (snd (thread_steps c n p w)).
Proof.
  induction n as [|n IH]; intros p w; simpl; [done |].
  destruct (thread_step c p w) as [p' w']. apply IH.
Qed.

Lemma thread_steps_1 c p w : thread_steps c 1 p w = thread_step c p w.
Proof. simpl. by destruct (thread_step c p w). Qed.

Lemma thread_steps_Finished c n r w :
  thread_steps c n (Finished r) w = (Finished r, w).
Proof. induction n as [|n IH]; simpl; [done | apply IH]. Qed.

(** The steps through the loop over [files] are the loop. *)
Lemma thread_steps_rewrite c n : ∀ k w,
  (k + n = Go.len (r_files c))%nat →
  thread_steps c n (AtRewrite k) w
  = (AtRewrite (k + n),
     {| renderer := renderer w;
        heap := range_files (templatesPath (renderer w)) (r_files c) k n (heap w);
        fs := fs w |}).
Proof.
  induction n as [|n IH]; intros k w Hk.
  - simpl. rewrite Nat.add_0_r. by destruct w.
  - simpl. rewrite decide_True by lia.
    rewrite IH by lia. simpl. by rewrite Nat.add_succ_r.
Qed.

(** From the parse to the end. *)
Lemma thread_steps_parse c w :
  thread_steps c 3 AtParseFiles w
  = match parse_templates (r_name c) (r_files c) (r_directories c) w with
    | inr e => (Finished (Err (template_error e)), w)
    | inl parsed =>
        (Finished (fst (Execute (r_group c) (r_id c) (r_name c) (r_data c)
                          (Store (request_key c) (any_Template parsed) w))),
         Store (request_key c) (any_Template parsed) w)
    end.
Proof.
  cbn [thread_steps thread_step].
  destruct (parse_templates _ _ _ w) as [parsed|e]; [|done].
  cbn [thread_steps thread_step].
  pose proof (Execute_world (r_group c) (r_id c) (r_name c) (r_data c)
                (Store (request_key c) (any_Template parsed) w)) as Hw.
  destruct (Execute _ _ _ _ _) as [r w']. simpl in *. by subst.
Qed.

Lemma serve_unfold c w :
  serve c w
  = if reparse (r_group c) (r_id c) w
    then match parse_templates (r_name c) (r_files c) (r_directories c)
                 (rewrite_files (r_files c) w) with
         | inr e => (Err (template_error e), rewrite_files (r_files c) w)
         | inl parsed =>
             (fst (Execute (r_group c) (r_id c) (r_name c) (r_data c)
                     (Store (request_key c) (any_Template parsed)
                        (rewrite_files (r_files c) w))),
              Store (request_key c) (any_Template parsed)
                (rewrite_files (r_files c) w))
         end
    else (fst (Execute (r_group c) (r_id c) (r_name c) (r_data c) w), w).
Proof.
  unfold serve, ParseAndExecute, Parse. fold (request_key c).
  destruct (reparse _ _ w).
  - destruct (parse_templates _ _ _ _) as [parsed|e]; [|done].
    pose proof (Execute_world (r_group c) (r_id c) (r_name c) (r_data c)
                  (Store (request_key c) (any_Template parsed)
                     (rewrite_files (r_files c) w))) as Hw.
    destruct (Execute _ _ _ _ _) as [[buf|err] w']; simpl in *; by subst.
  - pose proof (Execute_world (r_group c) (r_id c) (r_name c) (r_data c) w)
      as Hw.
    destruct (Execute _ _ _ _ _) as [[buf|err] w']; simpl in *; by subst.
Qed.

(** A handler running alone takes the steps of [ParseAndExecute]: after
    [len(files) + 5] of them it has finished with its result. *)
Lemma thread_steps_serve c w :
  thread_steps c (Go.len (r_files c) + 5) AtParse w
  = (Finished (fst (serve c w)), snd (serve c w)).
Proof.
  rewrite serve_unfold.
  replace (Go.len (r_files c) + 5)%nat with (S (Go.len (r_files c) + 4)) by lia.
  cbn [thread_steps thread_step].
  destruct (reparse (r_group c) (r_id c) w).
  - unfold rewrite_files. destruct (decide (0 < Go.len (r_files c))%nat).
    + rewrite thread_steps_add, thread_steps_rewrite by lia.
      cbn [fst snd].
      replace 4 with (1 + 3)%nat by done.
      rewrite thread_steps_add, thread_steps_1.
      cbn [thread_step]. rewrite decide_False by lia. cbn [fst snd].
      rewrite thread_steps_parse.
      by destruct (parse_templates _ _ _ _).
    + replace (Go.len (r_files c) + 4)%nat with (3 + 1)%nat by lia.
      rewrite thread_steps_add, thread_steps_parse.
      destruct (parse_templates _ _ _ _); cbn [fst snd];
        by rewrite thread_steps_Finished.
  - replace (Go.len (r_files c) + 4)%nat with (1 + (Go.len (r_files c) + 3))%nat
      by lia.
    rewrite thread_steps_add, thread_steps_1. cbn [thread_step].
    pose proof (Execute_world (r_group c) (r_id c) (r_name c) (r_data c) w)
      as Hw.
    destruct (Execute _ _ _ _ _) as [r w']. simpl in *. subst.
    by rewrite thread_steps_Finished.
Qed.

(** Alone, a handler finishes only with the result of [ParseAndExecute]. *)
Lemma thread_steps_finished c n w r w' :
  thread_steps c n AtParse w = (Finished r, w') →
  r = fst (serve c w) ∧ w' = snd (serve c w).
Proof.
  intros Hn.
  pose proof (thread_steps_serve c w) as Hserve.
  assert (thread_steps c (n + (Go.len (r_files c) + 5)) AtParse w
          = (Finished r, w')) as H1.
  { rewrite thread_steps_add, Hn. apply thread_steps_Finished. }
  rewrite Nat.add_comm, thread_steps_add, Hserve in H1. cbn [fst snd] in H1.
  rewrite thread_steps_Finished in H1. by simplify_eq.
Qed.

Lemma thread_steps_enough c n w :
  (Go.len (r_files c) + 5 ≤ n)%nat →
  thread_steps c n AtParse w = (Finished (fst (serve c w)), snd (serve c w)).
Proof.
  intros Hn.
  replace n with ((Go.len (r_files c) + 5) + (n - (Go.len (r_files c) + 5)))%nat
    by lia.
  rewrite thread_steps_add, thread_steps_serve. apply thread_steps_Finished.
Qed.

Lemma turns_snoc b schedule b' :
  turns b (schedule ++ [b'])
  = (turns b schedule + if decide (b' = b) then 1 else 0)%nat.
Proof.
  unfold turns. rewrite filter_app, length_app. f_equal.
  rewrite filter_cons, filter_nil. by destruct (decide (b' = b)).
Qed.

Lemma run_snoc c1 c2 schedule b w :
  run c1 c2 (schedule ++ [b]) w = system_step c1 c2 (run c1 c2 schedule w) b.
Proof. unfold run. by rewrite fold_left_app. Qed.

(** Under any schedule each handler is where it would be alone after as
    many steps, in a memory it cannot tell from the one it would have. *)
Lemma run_simulates c1 c2 w schedule :
  request_key c1 ≠ request_key c2 →
  private_files c1 c2 →
  (∃ wa, thread_steps c1 (turns true schedule) AtParse w
         = (left (run c1 c2 schedule w), wa) ∧
         agree c1 (shared (run c1 c2 schedule w)) wa) ∧
  (∃ wa, thread_steps c2 (turns false schedule) AtParse w
         = (right (run c1 c2 schedule w), wa) ∧
         agree c2 (shared (run c1 c2 schedule w)) wa).
Proof.
  intros Hkey (Hff & Hfd & Hdf).
  induction schedule as [|b schedule IH] using rev_ind.
  - split; exists w; split; by try apply agree_refl.
  - destruct IH as [(wa1 & Hrun1 & Hagree1) (wa2 & Hrun2 & Hagree2)].
    rewrite run_snoc, !turns_snoc.
    set (s := run c1 c2 schedule w) in *.
    destruct b; unfold system_step.
    + rewrite decide_True, decide_False by done. rewrite Nat.add_0_r.
      destruct (thread_step_agree c1 (left s) (shared s) wa1 Hagree1)
        as [Hpc Hag].
      pose proof (thread_step_frame c1 c2 (left s) (shared s) Hkey Hff Hfd)
        as Hframe.
      destruct (thread_step c1 (left s) (shared s)) as [p' w'] eqn:Hstep.
      cbn [left right shared fst snd] in *. split.
      * exists (snd (thread_step c1 (left s) wa1)). split; [|done].
        rewrite thread_steps_add, Hrun1, thread_steps_1. cbn [fst snd].
        rewrite Hpc. by destruct (thread_step c1 (left s) wa1).
      * exists wa2. split; [done |].
        exact (agree_trans c2 _ _ _ (agree_sym c2 _ _ Hframe) Hagree2).
    + rewrite decide_False, decide_True by done. rewrite Nat.add_0_r.
      destruct (thread_step_agree c2 (right s) (shared s) wa2 Hagree2)
        as [Hpc Hag].
      pose proof (thread_step_frame c2 c1 (right s) (shared s)
                    (not_eq_sym Hkey) (not_eq_sym Hff) Hdf) as Hframe.
      destruct (thread_step c2 (right s) (shared s)) as [p' w'] eqn:Hstep.
      cbn [left right shared fst snd] in *. split.
      * exists wa1. split; [done |].
        exact (agree_trans c1 _ _ _ (agree_sym c1 _ _ Hframe) Hagree1).
      * exists (snd (thread_step c2 (right s) wa2)). split; [|done].
        rewrite thread_steps_add, Hrun2, thread_steps_1. cbn [fst snd].
        rewrite Hpc. by destruct (thread_step c2 (right s) wa2).
Qed.

End Schedules.

(** C10 (as amended): two handlers, each calling [Parse] and then [Execute],
    on pairs with distinct cache keys and with [files] slices that share no
    backing array with the other handler's slices: under every interleaving
    of their steps, a handler that has finished has the result it has
    running alone, the entry of its key is the one it leaves running alone,
    and a handler given [len(files) + 5] steps has finished. *)
Theorem parallel_requests_do_not_interfere `{C : Collaborators}
    (c1 c2 : request) (w : World) (schedule : list bool) :
  request_key c1 ≠ request_key c2 →
  private_files c1 c2 →
  (∀ r, left (run c1 c2 schedule w) = Finished r →
     r = fst (serve c1 w) ∧
     templateCache (renderer (shared (run c1 c2 schedule w))) !! request_key c1
     = templateCache (renderer (snd (serve c1 w))) !! request_key c1) ∧
  (∀ r, right (run c1 c2 schedule w) = Finished r →
     r = fst (serve c2 w) ∧
     templateCache (renderer (shared (run c1 c2 schedule w))) !! request_key c2
     = templateCache (renderer (snd (serve c2 w))) !! request_key c2) ∧
  ((Go.len (r_files c1) + 5 ≤ turns true schedule)%nat →
   left (run c1 c2 schedule w) = Finished (fst (serve c1 w))) ∧
  ((Go.len (r_files c2) + 5 ≤ turns false schedule)%nat →
   right (run c1 c2 schedule w) = Finished (fst (serve c2 w))).
Proof.
  intros Hkey Hprivate.
  destruct (run_simulates c1 c2 w schedule Hkey Hprivate)
    as [(wa1 & Hrun1 & Hagree1) (wa2 & Hrun2 & Hagree2)].
  split; [|split; [|split]].
  - intros r Hr. rewrite Hr in Hrun1.
    apply thread_steps_finished in Hrun1 as [-> ->].
    split; [done |]. by destruct Hagree1 as [-> _].
  - intros r Hr. rewrite Hr in Hrun2.
    apply thread_steps_finished in Hrun2 as [-> ->].
    split; [done |]. by destruct Hagree2 as [-> _].
  - intros Hn. rewrite thread_steps_enough in Hrun1 by done. congruence.
  - intros Hn. rewrite thread_steps_enough in Hrun2 by done. congruence.
Qed.

Lemma parallel_requests_do_not_interfere_witness :
  left (run Sample.home Sample.about Sample.alternate (Sample.world "production"))
  = Finished (Ok "<h1>index</h1>Hi") ∧
  right (run Sample.home Sample.about Sample.alternate (Sample.world "production"))
  = Finished (Ok "<h1>about</h1>Ho").
Proof.
  assert (request_key Sample.home ≠ request_key Sample.about) as Hkey
    by discriminate.
  assert (private_files Sample.home Sample.about) as Hprivate
    by (repeat split; discriminate).
  destruct (parallel_requests_do_not_interfere Sample.home Sample.about
              (Sample.world "production") Sample.alternate Hkey Hprivate)
    as (_ & _ & Hleft & Hright).
  split.
  - rewrite Hleft by (vm_compute; lia). reflexivity.
  - rewrite Hright by (vm_compute; lia). reflexivity.
Defined.

(** C10 (as stated) fails, in two ways, already when one handler runs
    after the other. Two distinct pairs with one cache key: the second
    handler finds the template set of the first under its key and renders
    an error, where alone it renders its page. Two distinct keys and one
    [files] slice: the second handler prefixes the paths the first has
    prefixed, and its parse fails. *)
Lemma parallel_requests_interfere :
  ((r_group Sample.first_abc, r_id Sample.first_abc)
   ≠ (r_group Sample.second_abc, r_id Sample.second_abc) ∧
   private_files Sample.first_abc Sample.second_abc ∧
   right (run Sample.first_abc Sample.second_abc Sample.in_turn
            (Sample.world "production"))
   = Finished (Err (template_error "html/template: about.gohtml is undefined")) ∧
   fst (serve Sample.second_abc (Sample.world "production"))
   = Ok "<h1>about</h1>!") ∧
  (request_key Sample.home ≠ request_key Sample.start ∧
   right (run Sample.home Sample.start Sample.in_turn
            (Sample.world "production"))
   = Finished (Err (template_error
        "open /app/templates//app/templates/index.gohtml.gohtml: no such file or directory")) ∧
   fst (serve Sample.start (Sample.world "production"))
   = Ok "<h1>index</h1>Hi").
Proof.
  split.
  - split; [discriminate |]. split; [repeat split; discriminate |].
    split; reflexivity.
  - split; [discriminate |]. split; reflexivity.
Qed.

(** * Further properties of the renderer *)

Section Composition.
Context `{C : Collaborators}.
Implicit Types (w : World) (group id name : string) (files directories : Go.slice).

Lemma Execute_cached group id name data w tmpl :
  templateCache (renderer w) !! getCacheKey group id = Some (any_Template tmpl) →
  Execute group id name data w = (rendered tmpl name data, w).
Proof.
  intros Hin. unfold Execute, rendered. rewrite (Load_present _ _ _ _ Hin).
  by destruct (ExecuteTemplate _ _ _) as [buf [e|]].
Qed.

(** After a [Parse] that returned [nil] the key holds a template: the one
    just built, or the one that was cached. *)
Lemma Parse_nil_cached group id name files directories w w1 :
  Parse group id name files directories w = (None, w1) →
  ∃ tmpl,
    templateCache (renderer w1) !! getCacheKey group id = Some (any_Template tmpl) ∧
    (reparse group id w = true →
     parse_templates name files directories (rewrite_files files w) = inl tmpl) ∧
    (reparse group id w = false →
     templateCache (renderer w) !! getCacheKey group id = Some (any_Template tmpl)).
Proof.
  unfold Parse. destruct (reparse group id w) eqn:Hre.
  - destruct (parse_templates _ _ _ _) as [parsed|e]; [|done].
    intros [= <-]. exists parsed. simpl. by rewrite lookup_insert_eq.
  - intros [= <-]. apply reparse_false in Hre as [[tmpl Hin] _].
    by exists tmpl.
Qed.

Lemma ParseAndExecute_unfold group id name files directories data w :
  ParseAndExecute group id name files directories data w
  = match Parse group id name files directories w with
    | (Some err, w1) => (Err err, w1)
    | (None, w1) => (fst (Execute group id name data w1), w1)
    end.
Proof.
  unfold ParseAndExecute.
  destruct (Parse group id name files directories w) as [[err|] w1]; [done |].
  pose proof (Execute_world group id name data w1) as Hw.
  destruct (Execute group id name data w1) as [[buf|err] w2];
    simpl in *; by subst.
Qed.

(** X1: whatever the cache holds, an error of [ParseAndExecute] comes from
    [html/template] (the parse or the execution): it is never the
    not-found error nor the cast error of [Load]. *)
Theorem ParseAndExecute_error_from_template
    group id name files directories data w err w' :
  ParseAndExecute group id name files directories data w = (Err err, w') →
  (∃ e, err = template_error e) ∧ err ≠ NotFoundError ∧ err ≠ TypeError.
Proof.
  intros H.
  assert (∃ e, err = template_error e) as [e ->]; [|by eauto].
  rewrite ParseAndExecute_unfold in H.
  destruct (Parse group id name files directories w) as [[err1|] w1] eqn:HP.
  - injection H as -> ->. unfold Parse in HP.
    destruct (reparse group id w); [|done].
    destruct (parse_templates _ _ _ _); [done |]. injection HP as <- _. eauto.
  - destruct (Parse_nil_cached _ _ _ _ _ _ _ HP) as (tmpl & Hin & _).
    rewrite (Execute_cached _ _ _ _ _ tmpl Hin) in H. simpl in H.
    injection H as H _. unfold rendered in H.
    destruct (ExecuteTemplate _ _ _) as [buf [e|]]; [|done].
    injection H as <-. eauto.
Qed.

Lemma ParseAndExecute_fresh group id name files directories data w :
  reparse group id w = true →
  ParseAndExecute group id name files directories data w
  = match parse_templates name files directories (rewrite_files files w) with
    | inr e => (Err (template_error e), rewrite_files files w)
    | inl parsed =>
        (rendered parsed name data,
         Store (getCacheKey group id) (any_Template parsed)
           (rewrite_files files w))
    end.
Proof.
  intros Hre. rewrite ParseAndExecute_unfold. unfold Parse. rewrite Hre.
  destruct (parse_templates _ _ _ _) as [parsed|e]; [|done].
  rewrite (Execute_cached _ _ _ _ _ parsed); [done |].
  simpl. by rewrite lookup_insert_eq.
Qed.

(** X2: when [Parse] parses (key absent, entry not a template, or local
    environment), [ParseAndExecute] returns the error of the parse, or
    else renders the template set it has just built and stored. *)
Theorem ParseAndExecute_parses group id name files directories data w :
  reparse group id w = true →
  ParseAndExecute group id name files directories data w
  = match parse_templates name files directories (rewrite_files files w) with
    | inr e => (Err (template_error e), rewrite_files files w)
    | inl parsed =>
        (rendered parsed name data,
         Store (getCacheKey group id) (any_Template parsed)
           (rewrite_files files w))
    end.
Proof. apply ParseAndExecute_fresh. Qed.

(** X3: outside the local environment, over a cached template,
    [ParseAndExecute] renders that template and changes nothing: the
    [files] and [directories] passed, the slices and the template files
    play no part. *)
Theorem ParseAndExecute_cached group id name files directories data w tmpl :
  templateCache (renderer w) !! getCacheKey group id = Some (any_Template tmpl) →
  App_Environment (config (renderer w)) ≠ EnvLocal →
  ParseAndExecute group id name files directories data w
  = (rendered tmpl name data, w).
Proof.
  intros Hin Henv. rewrite ParseAndExecute_unfold.
  rewrite Parse_skip by by apply (reparse_cached _ _ _ tmpl).
  by rewrite (Execute_cached _ _ _ _ _ tmpl).
Qed.

(** X4: in the local environment what [ParseAndExecute] returns does not
    depend on the cache: the same request on the same files returns the
    same result whatever was cached before. *)
Theorem ParseAndExecute_local_ignores_cache
    group id name files directories data w cache :
  App_Environment (config (renderer w)) = EnvLocal →
  fst (ParseAndExecute group id name files directories data (with_cache cache w))
  = fst (ParseAndExecute group id name files directories data w).
Proof.
  intros Henv.
  rewrite !ParseAndExecute_fresh by by apply reparse_local.
  rewrite parse_templates_with_cache.
  by destruct (parse_templates _ _ _ _).
Qed.

(** X5: [Parse] touches no entry but that of its own key, and removes no
    entry at all. *)
Theorem Parse_other_keys group id name files directories w :
  (∀ key, key ≠ getCacheKey group id →
     templateCache (renderer (snd (Parse group id name files directories w))) !! key
     = templateCache (renderer w) !! key) ∧
  (∀ key, is_Some (templateCache (renderer w) !! key) →
     is_Some (templateCache
                (renderer (snd (Parse group id name files directories w))) !! key)).
Proof.
  unfold Parse. destruct (reparse group id w); [|done].
  destruct (parse_templates _ _ _ _) as [parsed|e]; simpl;
    rewrite rewrite_files_renderer; [|done].
  split.
  - intros key Hne. by rewrite lookup_insert_ne.
  - intros key Hin. destruct (decide (getCacheKey group id = key)) as [<- | Hne].
    + rewrite lookup_insert_eq. eauto.
    + by rewrite lookup_insert_ne.
Qed.

(** X6: [Parse] returns an error exactly when it parses and one of its
    calls to [ParseFiles] and [ParseGlob] fails: [ParseFiles] on a
    non-empty [files], or the first failing [ParseGlob] of the loop over
    the directories; the error returned is that of the failing call. *)
Theorem Parse_error_iff group id name files directories w err :
  fst (Parse group id name files directories w) = Some err ↔
  reparse group id w = true ∧
  ∃ e, load_fails name files directories (rewrite_files files w) e ∧
       err = template_error e.
Proof.
  setoid_rewrite <- parse_templates_load_fails.
  unfold Parse. destruct (reparse group id w).
  - destruct (parse_templates _ _ _ _) as [parsed|e]; simpl.
    + split; [done |]. by intros (_ & e & [=] & _).
    + split.
      * intros [= <-]. eauto.
      * by intros (_ & e' & [= <-] & ->).
  - simpl. split; [done |]. by intros [[=] _].
Qed.

(** X7: after a [Parse] that returned [nil], [Load] on the same pair
    returns a template: the one [Parse] has just built when it parsed, the
    one that was cached when it did not. *)
Theorem Parse_then_Load group id name files directories w w1 :
  Parse group id name files directories w = (None, w1) →
  ∃ tmpl,
    Load group id w1 = (Ok tmpl, w1) ∧
    (reparse group id w = true →
     parse_templates name files directories (rewrite_files files w) = inl tmpl) ∧
    (reparse group id w = false → Load group id w = (Ok tmpl, w)).
Proof.
  intros HP.
  destruct (Parse_nil_cached _ _ _ _ _ _ _ HP) as (tmpl & Hin & Hnew & Hold).
  exists tmpl. split; [by apply Load_present |]. split; [done |].
  intros Hre. by apply Load_present, Hold.
Qed.


End Composition.

(** ** What [Parse] writes *)

Section Writes.
Context `{C : Collaborators}.
Implicit Types (w : World) (group id name : string) (files directories : Go.slice).

Lemma rewrite_window_lookup (f : string → string) lo n (arr : list string) i :
  Go.rewrite_window f lo n arr !! i
  = if decide (lo ≤ i < lo + n)%nat then f <$> arr !! i else arr !! i.
Proof.
  unfold Go.rewrite_window.
  destruct (decide (lo ≤ length arr)%nat) as [Hlo|Hlo].
  - destruct (decide (i < lo)%nat) as [Hi|Hi].
    + rewrite decide_False by lia.
      rewrite lookup_app_l by (rewrite length_take; lia).
      by rewrite lookup_take_lt.
    + rewrite lookup_app_r by (rewrite length_take; lia).
      rewrite length_take, Nat.min_l by lia.
      destruct (decide (i < lo + n)%nat) as [Hn|Hn].
      * rewrite decide_True by lia.
        destruct (decide (i < length arr)%nat) as [Hlen|Hlen].
        -- rewrite lookup_app_l
             by (rewrite length_fmap, length_take, length_drop; lia).
           rewrite list_lookup_fmap, lookup_take_lt, lookup_drop by lia.
           by replace (lo + (i - lo))%nat with i by lia.
        -- rewrite (lookup_ge_None_2 arr i) by lia. simpl.
           apply lookup_ge_None_2.
           rewrite !length_app, length_fmap, length_take, !length_drop. lia.
      * rewrite decide_False by lia.
        destruct (decide (lo + n ≤ length arr)%nat) as [Hfit|Hfit].
        -- rewrite lookup_app_r
             by (rewrite length_fmap, length_take, length_drop; lia).
           rewrite length_fmap, length_take, length_drop, lookup_drop.
           f_equal. lia.
        -- rewrite (lookup_ge_None_2 arr i) by lia.
           apply lookup_ge_None_2.
           rewrite !length_app, length_fmap, length_take, !length_drop. lia.
  - rewrite take_ge, !drop_ge by lia. rewrite take_nil. simpl.
    rewrite app_nil_r.
    destruct (decide _); [|done].
    by rewrite (lookup_ge_None_2 arr i) by lia.
Qed.

Lemma rewrite_window_length (f : string → string) lo n (arr : list string) :
  length (Go.rewrite_window f lo n arr) = length arr.
Proof.
  unfold Go.rewrite_window.
  rewrite !length_app, length_fmap, length_take, length_take, !length_drop. lia.
Qed.

(** The loop changes the length of no array. *)
Lemma range_files_lengths root s n p : ∀ k h,
  length <$> (range_files root s k n h !! p) = length <$> (h !! p).
Proof.
  induction n as [|n IH]; intros k h; simpl; [done |].
  rewrite IH. unfold Go.store. rewrite lookup_alter.
  destruct (decide (Go.ptr s = p)) as [<- | Hne]; [|done].
  destruct (h !! Go.ptr s) as [arr|]; simpl; [|done].
  by rewrite length_insert.
Qed.

Lemma Parse_heap_cases group id name files directories w :
  heap (snd (Parse group id name files directories w))
  = if reparse group id w then heap (rewrite_files files w) else heap w.
Proof.
  unfold Parse. destruct (reparse group id w); [|done].
  by destruct (parse_templates _ _ _ _).
Qed.

(** X8: a [Parse] that parses writes to the caller's memory only inside
    the window of [files]: each element of the window gets its path, the
    elements of the array outside it, the length of the array and all the
    other arrays are left as they are. *)
Theorem Parse_writes_in_window group id name files directories w arr :
  reparse group id w = true →
  heap w !! Go.ptr files = Some arr →
  (Go.off files + Go.len files ≤ length arr)%nat →
  (∃ arr',
     heap (snd (Parse group id name files directories w)) !! Go.ptr files
     = Some arr' ∧
     length arr' = length arr ∧
     ∀ i, arr' !! i
          = if decide (Go.off files ≤ i < Go.off files + Go.len files)%nat
            then file_path (templatesPath (renderer w)) <$> arr !! i
            else arr !! i) ∧
  (∀ p, p ≠ Go.ptr files →
     heap (snd (Parse group id name files directories w)) !! p = heap w !! p).
Proof.
  intros Hre Harr Hlen. rewrite Parse_heap_cases, Hre. unfold rewrite_files.
  destruct (decide (0 < Go.len files)%nat) as [Hpos|Hpos]; simpl.
  - split.
    + rewrite (range_files_window _ _ _ _ _ arr), Nat.add_0_r by (done || lia).
      rewrite lookup_insert_eq. eexists. split; [done |].
      split; [apply rewrite_window_length |].
      intros i. apply rewrite_window_lookup.
    + intros p Hp. by apply range_files_other.
  - split; [|done]. exists arr. split; [done |]. split; [done |].
    intros i. destruct (decide _); [lia | done].
Qed.

(** X9: a slice that was valid before [Parse] is valid after it: [Parse]
    never shortens, grows or drops an array. *)
Theorem Parse_keeps_valid group id name files directories w (s : Go.slice) :
  Go.valid (heap w) s →
  Go.valid (heap (snd (Parse group id name files directories w))) s.
Proof.
  intros (arr & Harr & Hlen). rewrite Parse_heap_cases.
  destruct (reparse group id w); [|by exists arr].
  unfold rewrite_files. destruct (decide _); [|by exists arr]. simpl.
  pose proof (range_files_lengths (templatesPath (renderer w)) files
                (Go.len files) (Go.ptr s) 0 (heap w)) as Hl.
  rewrite Harr in Hl. simpl in Hl.
  destruct (range_files _ _ _ _ _ !! Go.ptr s) as [arr'|] eqn:Harr'; [|done].
  injection Hl as Hl. exists arr'. split; [done | lia].
Qed.

(** X10: with an empty [files] (a nil slice), or over a cached template
    outside the local environment, [Parse] writes to no slice. *)
Theorem Parse_no_writes group id name files directories w :
  Go.len files = 0%nat ∨ reparse group id w = false →
  heap (snd (Parse group id name files directories w)) = heap w.
Proof.
  intros H. rewrite Parse_heap_cases.
  destruct (reparse group id w); [|done].
  destruct H as [H|H]; [|done].
  unfold rewrite_files. rewrite decide_False by lia. done.
Qed.

(** X11: with no file and no directory, a [Parse] that parses cannot fail:
    it calls neither [ParseFiles] nor [ParseGlob] and stores the new, empty
    template named [name + extension] bound to the function map. *)
Theorem Parse_nothing_to_load group id name files directories w :
  reparse group id w = true →
  Go.len files = 0%nat →
  Go.len directories = 0%nat →
  Parse group id name files directories w
  = (None,
     Store (getCacheKey group id)
       (any_Template
          (Funcs (template_New (name +:+ TemplateExt)) (funcMap (renderer w))))
       w).
Proof.
  intros Hre Hfiles Hdirs. unfold Parse. rewrite Hre.
  unfold rewrite_files, parse_templates, Go.elems.
  rewrite !decide_False by lia. by rewrite Hdirs.
Qed.

(** X12: the loop over the directories stops at the first glob that fails:
    when the files are parsed, the directories before [dir] are parsed and
    the glob of [dir] fails, [Parse] returns that error whatever follows
    [dir], and stores nothing. *)
Theorem Parse_first_failing_glob
    group id name files directories w parsed before dir after parsed' e :
  reparse group id w = true →
  (if decide (0 < Go.len files)%nat
   then ParseFiles (fs w)
          (Funcs (template_New (name +:+ TemplateExt)) (funcMap (renderer w)))
          (Go.elems (heap (rewrite_files files w)) files)
   else inl (Funcs (template_New (name +:+ TemplateExt))
               (funcMap (renderer w)))) = inl parsed →
  Go.elems (heap (rewrite_files files w)) directories
  = (before ++ dir :: after)%list →
  range_directories (rewrite_files files w) parsed before = inl parsed' →
  ParseGlob (fs w) parsed' (dir_pattern (templatesPath (renderer w)) dir)
  = inr e →
  fst (Parse group id name files directories w) = Some (template_error e) ∧
  templateCache (renderer (snd (Parse group id name files directories w)))
  = templateCache (renderer w).
Proof.
  intros Hre Hfiles Hdirs Hbefore Hglob.
  assert (parse_templates name files directories (rewrite_files files w)
          = inr e) as Hfail.
  { apply parse_templates_fails. right. exists parsed.
    rewrite rewrite_files_fs, rewrite_files_renderer. split; [done |].
    apply range_directories_fails.
    exists before, dir, after, parsed'.
    by rewrite rewrite_files_fs, rewrite_files_renderer. }
  rewrite (Parse_error _ _ _ _ _ _ e) by done. simpl.
  by rewrite rewrite_files_renderer.
Qed.

End Writes.

(** ** What [Execute] and a new renderer do *)

Section Reads.
Context `{C : Collaborators}.
Implicit Types (w : World) (group id name : string).

(** X13: the three outcomes of [Execute] that do not reach the template:
    the not-found error exactly for an absent key, the cast error exactly
    for an entry that is no template; and a buffer exactly when
    [ExecuteTemplate] on the cached template returns no error, so that
    the bytes written before an error are never returned. *)
Theorem Execute_outcomes group id name data w :
  (fst (Execute group id name data w) = Err NotFoundError ↔
   templateCache (renderer w) !! getCacheKey group id = None) ∧
  (fst (Execute group id name data w) = Err TypeError ↔
   ∃ v, templateCache (renderer w) !! getCacheKey group id = Some (any_other v)) ∧
  (∀ buf,
     fst (Execute group id name data w) = Ok buf ↔
     ∃ tmpl,
       templateCache (renderer w) !! getCacheKey group id
       = Some (any_Template tmpl) ∧
       ExecuteTemplate tmpl (name +:+ TemplateExt) data = (buf, None)).
Proof.
  unfold Execute, Load.
  destruct (templateCache (renderer w) !! getCacheKey group id)
    as [[tmpl|v]|] eqn:Hin; simpl.
  - destruct (ExecuteTemplate _ _ _) as [out [e|]] eqn:HE; simpl.
    + repeat split; try done.
      * by intros [v [=]].
      * intros (tmpl' & [= <-] & HE'). congruence.
    + repeat split; try done.
      * by intros [v [=]].
      * intros [= <-]. eauto.
      * intros (tmpl' & [= <-] & HE'). congruence.
  - repeat split; try done.
    + eauto.
    + by intros (tmpl & [=] & _).
  - repeat split; try done.
    + by intros [v [=]].
    + by intros (tmpl & [=] & _).
Qed.

(** X14: [Execute] reads nothing but the entry of its key: in two worlds
    with the same entry (other entries, slices, template files and
    configuration may differ) it returns the same result. *)
Theorem Execute_reads_entry_only group id name data w w' :
  templateCache (renderer w) !! getCacheKey group id
  = templateCache (renderer w') !! getCacheKey group id →
  fst (Execute group id name data w) = fst (Execute group id name data w').
Proof.
  intros Heq. unfold Execute, Load. rewrite Heq.
  destruct (templateCache (renderer w') !! getCacheKey group id)
    as [[tmpl|v]|]; simpl; try done.
  by destruct (ExecuteTemplate _ _ _) as [out [e|]].
Qed.

(** X15: no method changes the templates path or the function map: in
    every world a program reaches, [GetTemplatesPath] returns the
    directory resolved by [NewTemplateRenderer] and the function map is
    that of [funcmap.GetFuncMap]. *)
Theorem GetTemplatesPath_fixed w :
  reachable w →
  GetTemplatesPath w = TemplateRoot ∧ funcMap (renderer w) = GetFuncMap.
Proof.
  unfold GetTemplatesPath.
  induction 1 as [cfg h f | w cfg h f _ IH | w group id _ IH
                 | w group id name files directories _ IH
                 | w group id name data _ IH
                 | w group id name files directories data _ IH].
  - done.
  - exact IH.
  - by rewrite Load_world.
  - destruct (Parse_fields group id name files directories w)
      as (Hfm & Hroot & _). simpl in Hfm, Hroot. by rewrite Hfm, Hroot.
  - by rewrite Execute_world.
  - rewrite ParseAndExecute_world.
    destruct (Parse_fields group id name files directories w)
      as (Hfm & Hroot & _). simpl in Hfm, Hroot. by rewrite Hfm, Hroot.
Qed.

(** X16: on a renderer just made, in any environment, the first request
    for a page parses: [ParseAndExecute] returns the error of the parse or
    renders the set it has built from files under the resolved directory
    with the function map of [funcmap.GetFuncMap]. *)
Theorem NewTemplateRenderer_first_request
    cfg h f group id name files directories data :
  ParseAndExecute group id name files directories data
    {| renderer := NewTemplateRenderer cfg; heap := h; fs := f |}
  = match parse_templates name files directories
            (rewrite_files files
               {| renderer := NewTemplateRenderer cfg; heap := h; fs := f |}) with
    | inr e =>
        (Err (template_error e),
         rewrite_files files
           {| renderer := NewTemplateRenderer cfg; heap := h; fs := f |})
    | inl parsed =>
        (rendered parsed name data,
         Store (getCacheKey group id) (any_Template parsed)
           (rewrite_files files
              {| renderer := NewTemplateRenderer cfg; heap := h; fs := f |}))
    end.
Proof. apply ParseAndExecute_fresh. unfold reparse, Load. simpl. by rewrite lookup_empty. Qed.

End Reads.

(** ** The further properties on the sample templates *)

Lemma ParseAndExecute_error_from_template_witness :
  (∃ e : string,
     @template_error string
       "open /app/templates/missing.gohtml: no such file or directory"
     = template_error e) ∧
  template_error "open /app/templates/missing.gohtml: no such file or directory"
  ≠ NotFoundError ∧
  template_error "open /app/templates/missing.gohtml: no such file or directory"
  ≠ TypeError.
Proof.
  apply (ParseAndExecute_error_from_template "page" "home" "index"
           Sample.missing_files Sample.nil_slice (Sample.data "Hi")
           (Sample.world "production") _
           (rewrite_files Sample.missing_files (Sample.world "production"))).
  reflexivity.
Defined.

Lemma ParseAndExecute_parses_witness :
  fst (ParseAndExecute "page" "home" "about" Sample.about_files
         Sample.components (Sample.data "Hi") (Sample.served "local"))
  = Ok "<h1>about</h1>Hi".
Proof.
  rewrite (ParseAndExecute_parses "page" "home" "about" Sample.about_files
             Sample.components (Sample.data "Hi") (Sample.served "local")
             eq_refl).
  reflexivity.
Defined.

Lemma ParseAndExecute_cached_witness :
  fst (ParseAndExecute "page" "home" "nav" Sample.missing_files
         Sample.nil_slice (Sample.data "!") (Sample.served "production"))
  = Ok "<nav/>!".
Proof.
  assert (templateCache (renderer (Sample.served "production"))
            !! getCacheKey "page" "home"
          = Some (any_Template
                    {| Sample.tname := "index.gohtml";
                       Sample.tset := {[ "index.gohtml" := "<h1>index</h1>";
                                         "nav.gohtml" := "<nav/>" ]} |}))
    as Hin by (vm_compute; reflexivity).
  assert (App_Environment (config (renderer (Sample.served "production")))
          ≠ EnvLocal) as Henv by (vm_compute; discriminate).
  rewrite (ParseAndExecute_cached "page" "home" "nav" Sample.missing_files
             Sample.nil_slice (Sample.data "!") (Sample.served "production")
             _ Hin Henv).
  reflexivity.
Defined.

Lemma ParseAndExecute_local_ignores_cache_witness :
  fst (ParseAndExecute "page" "home" "about" Sample.about_files
         Sample.nil_slice (Sample.data "Ho")
         (with_cache (templateCache (renderer (Sample.served "local")))
            (Sample.world "local")))
  = fst (ParseAndExecute "page" "home" "about" Sample.about_files
           Sample.nil_slice (Sample.data "Ho") (Sample.world "local")).
Proof.
  apply (ParseAndExecute_local_ignores_cache "page" "home" "about"
           Sample.about_files Sample.nil_slice (Sample.data "Ho")
           (Sample.world "local")).
  reflexivity.
Defined.

Lemma Parse_then_Load_witness :
  ∃ tmpl,
    Load "page" "home" (Sample.served "production")
    = (Ok tmpl, Sample.served "production") ∧
    parse_templates "index" Sample.index_files Sample.components
      (rewrite_files Sample.index_files (Sample.world "production"))
    = inl tmpl.
Proof.
  destruct (Parse_then_Load "page" "home" "index" Sample.index_files
              Sample.components (Sample.world "production")
              (Sample.served "production") eq_refl)
    as (tmpl & HLoad & Hnew & _).
  exists tmpl. split; [exact HLoad | exact (Hnew eq_refl)].
Defined.

Lemma Parse_writes_in_window_witness :
  heap (snd (Parse "page" "home" "index" Sample.middle Sample.nil_slice
               (Sample.world_more "production"))) !! 4
  = Some ["components"; "/app/templates/nothing.gohtml"; "components"] ∧
  heap (snd (Parse "page" "home" "index" Sample.middle Sample.nil_slice
               (Sample.world_more "production"))) !! 0
  = Some ["index"].
Proof.
  assert (Go.off Sample.middle + Go.len Sample.middle
          ≤ length ["components"; "nothing"; "components"])%nat as Hlen
    by (simpl; lia).
  destruct (Parse_writes_in_window "page" "home" "index" Sample.middle
              Sample.nil_slice (Sample.world_more "production")
              ["components"; "nothing"; "components"]
              eq_refl eq_refl Hlen)
    as [_ Hother].
  split.
  - reflexivity.
  - etrans; [apply (Hother 0); discriminate | reflexivity].
Defined.

Lemma Parse_keeps_valid_witness :
  Go.valid
    (heap (snd (Parse "page" "home" "index" Sample.middle Sample.nil_slice
                  (Sample.world_more "production"))))
    Sample.three_directories.
Proof.
  apply (Parse_keeps_valid "page" "home" "index" Sample.middle
           Sample.nil_slice (Sample.world_more "production")).
  exists ["components"; "nothing"; "components"].
  split; [reflexivity | simpl; lia].
Defined.

Lemma Parse_no_writes_witness :
  heap (snd (Parse "page" "home" "index" Sample.nil_slice Sample.components
               (Sample.world "local")))
  = heap (Sample.world "local").
Proof.
  apply (Parse_no_writes "page" "home" "index" Sample.nil_slice
           Sample.components (Sample.world "local")).
  left. reflexivity.
Defined.

Lemma Parse_nothing_to_load_witness :
  fst (Parse "page" "home" "empty" Sample.nil_slice Sample.nil_slice
         (Sample.world "local")) = None ∧
  templateCache
    (renderer (snd (Parse "page" "home" "empty" Sample.nil_slice
                      Sample.nil_slice (Sample.world "local"))))
    !! "page:home"
  = Some (any_Template {| Sample.tname := "empty.gohtml"; Sample.tset := ∅ |}).
Proof.
  rewrite (Parse_nothing_to_load "page" "home" "empty" Sample.nil_slice
             Sample.nil_slice (Sample.world "local") eq_refl eq_refl eq_refl).
  split; reflexivity.
Defined.

Lemma Parse_first_failing_glob_witness :
  fst (Parse "page" "home" "index" Sample.nil_slice Sample.three_directories
         (Sample.world_more "production"))
  = Some (template_error
            "html/template: pattern matches no files: /app/templates/nothing/*.gohtml") ∧
  templateCache
    (renderer (snd (Parse "page" "home" "index" Sample.nil_slice
                      Sample.three_directories (Sample.world_more "production"))))
  = templateCache (renderer (Sample.world_more "production")).
Proof.
  apply (Parse_first_failing_glob "page" "home" "index" Sample.nil_slice
           Sample.three_directories (Sample.world_more "production")
           {| Sample.tname := "index.gohtml"; Sample.tset := ∅ |}
           ["components"] "nothing" ["components"]
           {| Sample.tname := "index.gohtml";
              Sample.tset := {[ "nav.gohtml" := "<nav/>" ]} |});
    reflexivity.
Defined.

Lemma Execute_reads_entry_only_witness :
  fst (Execute "page" "home" "index" (Sample.data "Hi")
         (Sample.served "production"))
  = fst (Execute "page" "home" "index" (Sample.data "Hi")
           {| renderer := renderer (Sample.served "production");
              heap := ∅;
              fs := Sample.edited |}).
Proof.
  apply (Execute_reads_entry_only "page" "home" "index" (Sample.data "Hi")
           (Sample.served "production")
           {| renderer := renderer (Sample.served "production");
              heap := ∅;
              fs := Sample.edited |}).
  reflexivity.
Defined.

Lemma GetTemplatesPath_fixed_witness :
  GetTemplatesPath (Sample.served "local") = "/app/templates" ∧
  funcMap (renderer (Sample.served "local")) = tt.
Proof.
  apply (GetTemplatesPath_fixed (Sample.served "local")).
  apply reach_Parse, reach_new.
Defined.

